(** * Manifold portfolio analyzer: the valuation engine of [manifold-api.js]

    A shallow embedding of the calculation functions of [manifold-api.js]
    and the properties of its valuation engine.

    Numbers.  JavaScript numbers are modelled as real numbers with exact
    arithmetic; [NaN] is kept as a separate value where the code can produce
    it from an [undefined] operand.  [Math.pow] is the real power function
    on positive bases.  Rounding, overflow and the infinities are outside
    the model.

    Objects.  A field read from a parsed JSON object is a [value]:
    [undefined] when the key is absent, [null], or a number. *)

From Stdlib Require Import Reals Lra Lia PeanoNat List String Bool.
From Stdlib Require Import Permutation Sorted.
Import ListNotations.

Open Scope string_scope.
Open Scope R_scope.

(** ** JavaScript values and operators *)

Inductive value : Type :=
| undefined
| null
| number (x : R).

(** A number that may be [NaN]. *)
Inductive num : Type :=
| NaN
| Fin (x : R).

Definition Rltb (x y : R) : bool := if Rlt_dec x y then true else false.
Definition Rleb (x y : R) : bool := if Rle_dec x y then true else false.
Definition Reqb (x y : R) : bool := if Req_dec_T x y then true else false.

Infix "<?" := Rltb (at level 70, no associativity) : R_scope.
Infix "<=?" := Rleb (at level 70, no associativity) : R_scope.

(** [v || d] on a numeric field: [undefined], [null] and [0] are falsy. *)
Definition orElse (v : value) (d : R) : R :=
  match v with
  | number x => if Reqb x 0 then d else x
  | _ => d
  end.

(** [v > 0] on a field: [undefined] converts to [NaN], [null] to [0]. *)
Definition positive (v : value) : bool :=
  match v with
  | number x => 0 <? x
  | _ => false
  end.

(** [ToNumber]. *)
Definition toNumber (v : value) : num :=
  match v with
  | undefined => NaN
  | null => Fin 0
  | number x => Fin x
  end.

Definition nlift2 (op : R -> R -> R) (a b : num) : num :=
  match a, b with
  | Fin x, Fin y => Fin (op x y)
  | _, _ => NaN
  end.

Definition nmul : num -> num -> num := nlift2 Rmult.
Definition nsub : num -> num -> num := nlift2 Rminus.
Definition ndiv : num -> num -> num := nlift2 Rdiv.

(** Comparisons with a [NaN] operand are false. *)
Definition nltb (a b : num) : bool :=
  match a, b with
  | Fin x, Fin y => x <? y
  | _, _ => false
  end.

Definition nleb (a b : num) : bool :=
  match a, b with
  | Fin x, Fin y => x <=? y
  | _, _ => false
  end.

(** [Math.pow] on the reals.  For a positive base it is [exp (y * ln x)];
    [Math.pow(x, 0)] is [1] and [Math.pow(0, y)] is [0] for [y > 0].  The
    remaining cases ([Infinity] and [NaN] in JavaScript) are outside the
    model and are given the value [0]. *)
Definition Math_pow (x y : R) : R :=
  if Reqb y 0 then 1
  else if 0 <? x then Rpower x y
  else 0.

(** ** The AMM share-cost solver *)

(** A JavaScript object with the keys [YES] and [NO]: a pool, or the
    [totalShares] of a holding. *)
Record YesNo : Type := mkYesNo { YES : value; NO : value }.

(** [calculateCpmmShares(pool, p, betAmount, outcome)]. *)
Definition calculateCpmmShares
    (pool : YesNo) (p betAmount : R) (outcome : string) : R :=
  if Reqb betAmount 0 then 0
  else
    let y := orElse (YES pool) 0 in
    let n := orElse (NO pool) 0 in
    let k := Math_pow y p * Math_pow n (1 - p) in
    if (outcome =? "YES")%string then
      y + betAmount - Math_pow (k * Math_pow (betAmount + n) (p - 1)) (1 / p)
    else
      n + betAmount - Math_pow (k * Math_pow (betAmount + y) (- p)) (1 / (1 - p)).

(** The binary-search loop of [calculateAmountToBuyShares]: [iters]
    remaining rounds on the loop variables [minAmount], [maxAmount], [mid];
    [received] is the call [calculateCpmmShares(pool, p, mid, outcome)]. *)
Fixpoint bisect (received : R -> R) (shares : R) (iters : nat)
    (minAmount maxAmount mid : R) : R :=
  match iters with
  | O => mid
  | S i =>
      let mid := (minAmount + maxAmount) / 2 in
      let sharesReceived := received mid in
      if Rabs (sharesReceived - shares) <? 1 / 10000 then mid
      else if sharesReceived <? shares then
        bisect received shares i mid maxAmount mid
      else
        bisect received shares i minAmount mid mid
  end.

(** The probability estimate and lower search bound computed at the top of
    [calculateAmountToBuyShares]. *)
Definition poolProb (pool : YesNo) : R :=
  let y := orElse (YES pool) 0 in
  let n := orElse (NO pool) 0 in
  if 0 <? y + n then n / (y + n) else 1 / 2.

Definition lowerBound (pool : YesNo) (shares : R) (outcome : string) : R :=
  if (outcome =? "YES")%string then shares * poolProb pool
  else shares * (1 - poolProb pool).

(** [calculateAmountToBuyShares(pool, p, shares, outcome)]. *)
Definition calculateAmountToBuyShares
    (pool : YesNo) (p shares : R) (outcome : string) : R :=
  if shares <=? 0 then 0
  else
    let minAmount := lowerBound pool shares outcome in
    let maxAmount := shares in
    bisect (fun mid => calculateCpmmShares pool p mid outcome)
           shares 50 minAmount maxAmount 0.

(** [['cpmm-1', 'cpmm-multi-1'].includes(mechanism)]. *)
Definition supported (mechanism : string) : bool :=
  existsb (String.eqb mechanism) ["cpmm-1"; "cpmm-multi-1"].

Definition opposite (outcome : string) : string :=
  if (outcome =? "YES")%string then "NO" else "YES".

(** [calculateSaleValue(shares, outcome, pool, p, mechanism)]. *)
Definition calculateSaleValue
    (shares : R) (outcome : string) (pool : YesNo) (p : R)
    (mechanism : string) : R :=
  if negb (supported mechanism) then 0
  else
    let y := orElse (YES pool) 0 in
    let n := orElse (NO pool) 0 in
    if (y <=? 0) || (n <=? 0) then 0
    else
      let oppositeOutcome := opposite outcome in
      let buyAmount := calculateAmountToBuyShares pool p shares oppositeOutcome in
      Rmax 0 (shares - buyAmount).

(** [calculateSimpleSaleValue(shares, probability, outcome)]. *)
Definition calculateSimpleSaleValue
    (shares : R) (probability : value) (outcome : string) : num :=
  if (outcome =? "YES")%string then
    nmul (Fin shares) (toNumber probability)
  else if (outcome =? "NO")%string then
    nmul (Fin shares) (nsub (Fin 1) (toNumber probability))
  else Fin 0.

(** [calculateReturnIfCorrect(saleValue, shares, closeTime, currentTime)];
    [None] is the [null] result.  [!closeTime] holds for [undefined],
    [null] and [0]. *)
Definition calculateReturnIfCorrect
    (saleValue : num) (shares : R) (closeTime : value) (currentTime : R)
    : option num :=
  match closeTime with
  | number c =>
      if Reqb c 0 then None
      else
        let daysUntilClose := (c - currentTime) / (1000 * 60 * 60 * 24) in
        if (daysUntilClose <=? 0) || nleb saleValue (Fin 0) then None
        else
          let profitIfCorrect := nsub (Fin shares) saleValue in
          let effectiveDays := Rmax daysUntilClose 1 in
          Some (nmul (ndiv profitIfCorrect saleValue)
                     (Fin (365 / effectiveDays)))
  | _ => None
  end.

(** ** The records of the pipeline *)

Module Answer.
Record t : Type := mk {
    id : string;
    resolution : option string;   (* [None]: undefined or null *)
    prob : value;
    text : option string;
    poolYes : value;
    poolNo : value
  }.
End Answer.

Module Contract.
Record t : Type := mk {
    id : string;
    isResolved : bool;
    mechanism : option string;
    closeTime : value;
    question : option string;
    slug : option string;
    creatorUsername : option string;
    p : value;
    prob : value;
    pool : option YesNo;
    answers : option (list Answer.t)
  }.
End Contract.

Module Metrics.
Record t : Type := mk {
    totalShares : option YesNo;
    answerId : option string
  }.
End Metrics.

Module RawData.
  (** [metricsByContract] is given by its [Object.entries], in enumeration
      order. *)
Record t : Type := mk {
    contracts : option (list Contract.t);
    metricsByContract : option (list (string * list Metrics.t))
  }.
End RawData.

Module Position.
Record t : Type := mk {
    contractId : string;
    question : string;
    answer : option string;
    url : string;
    outcome : string;
    shares : R;
    saleValue : num;
    fairValue : num;
    slippage : num;
    probability : value;
    daysUntilClose : option R;
    returnIfCorrect : option num
  }.
End Position.

(** [s || d] on a string field: absent and empty strings are falsy. *)
Definition strOr (s : option string) (d : string) : string :=
  match s with
  | Some (String a r) => String a r
  | _ => d
  end.

(** [o || {}] on an object with the keys [YES] and [NO]. *)
Definition objOr (o : option YesNo) : YesNo :=
  match o with
  | Some o => o
  | None => mkYesNo undefined undefined
  end.

Definition listOr {A : Type} (l : option (list A)) : list A :=
  match l with
  | Some l => l
  | None => []
  end.

(** The object [contractsLookup], filled by
    [contracts.forEach(c => contractsLookup[c.id] = c)]. *)
Definition Lookup : Type := string -> option Contract.t.

Definition emptyLookup : Lookup := fun _ => None.

Definition assign (m : Lookup) (c : Contract.t) : Lookup :=
  fun k => if (k =? Contract.id c)%string then Some c else m k.

Definition buildLookup (contracts : list Contract.t) : Lookup :=
  fold_left assign contracts emptyLookup.

(** ** The position pipeline *)

(** The loop variables [probability], [answerText] and [pool] of
    [processPositions]. *)
Record Resolved : Type := mkResolved {
  r_probability : value;
  r_answerText : option string;
  r_pool : YesNo
}.

(** [answerId] is truthy: present and not the empty string. *)
Definition truthyId (answerId : option string) : option string :=
  match answerId with
  | Some (String a r) => Some (String a r)
  | _ => None
  end.

(** The [for (const ans of answers)] loop: it stops at the first answer
    whose id is [answerId]; a resolved answer leaves the variables as they
    were. *)
Fixpoint scanAnswers (answers : list Answer.t) (answerId : string)
    (st : Resolved) : Resolved :=
  match answers with
  | [] => st
  | ans :: rest =>
      if (Answer.id ans =? answerId)%string then
        match Answer.resolution ans with
        | Some _ => st
        | None =>
            mkResolved (Answer.prob ans)
                       (Some (strOr (Answer.text ans) ""))
                       (mkYesNo (number (orElse (Answer.poolYes ans) 0))
                                (number (orElse (Answer.poolNo ans) 0)))
        end
      else scanAnswers rest answerId st
  end.

(** The branch on [mechanism] that reads probability and pool. *)
Definition resolve (contract : Contract.t) (mechanism : string)
    (answerId : option string) : Resolved :=
  let st := mkResolved null None (mkYesNo undefined undefined) in
  if (mechanism =? "cpmm-1")%string then
    mkResolved (Contract.prob contract) None (objOr (Contract.pool contract))
  else if (mechanism =? "cpmm-multi-1")%string then
    match truthyId answerId with
    | Some answerId =>
        scanAnswers (listOr (Contract.answers contract)) answerId st
    | None => st
    end
  else st.

(** [if (probability === null) { ... }]: [None] is the [continue]. *)
Definition fallbackProbability (probability : value) (pool : YesNo)
    : option value :=
  match probability with
  | null =>
      let yesPool := orElse (YES pool) 0 in
      let noPool := orElse (NO pool) 0 in
      if (0 <? yesPool) && (0 <? noPool) then
        Some (number (noPool / (yesPool + noPool)))
      else None
  | _ => Some probability
  end.

(** The body of the loop over [metricsList]: [Some] is the record pushed
    on [positions], [None] a [continue]. *)
Definition processMetrics (currentTime : R) (contractId : string)
    (contract : Contract.t) (mechanism : string) (metrics : Metrics.t)
    : option Position.t :=
  let totalShares := objOr (Metrics.totalShares metrics) in
  let yesShares := orElse (YES totalShares) 0 in
  let noShares := orElse (NO totalShares) 0 in
  if (yesShares <=? 0) && (noShares <=? 0) then None
  else
    let outcome := if noShares <? yesShares then "YES" else "NO" in
    let shares := if noShares <? yesShares then yesShares else noShares in
    if shares <? 1 / 100 then None
    else
      let closeTime := Contract.closeTime contract in
      let question := strOr (Contract.question contract) "Unknown" in
      let slug := strOr (Contract.slug contract) "" in
      let creatorUsername := strOr (Contract.creatorUsername contract) "" in
      let url :=
        match slug with
        | EmptyString => ""
        | _ => "https://manifold.markets/" ++ creatorUsername ++ "/" ++ slug
        end%string in
      let p := orElse (Contract.p contract) (1 / 2) in
      let answerId := Metrics.answerId metrics in
      let st := resolve contract mechanism answerId in
      let answerText := r_answerText st in
      let pool := r_pool st in
      match fallbackProbability (r_probability st) pool with
      | None => None
      | Some probability =>
          let ammSaleValue :=
            if positive (YES pool) && positive (NO pool) then
              calculateSaleValue shares outcome pool p mechanism
            else 0 in
          let fairValue := calculateSimpleSaleValue shares probability outcome in
          let saleValue := if 0 <? ammSaleValue then Fin ammSaleValue else fairValue in
          let slippage :=
            if nltb (Fin 0) fairValue && (0 <? ammSaleValue) then
              ndiv (nsub fairValue (Fin ammSaleValue)) fairValue
            else Fin 0 in
          let returnIfCorrect :=
            calculateReturnIfCorrect saleValue shares closeTime currentTime in
          let daysUntilClose :=
            match closeTime with
            | number c =>
                if Reqb c 0 then None
                else Some ((c - currentTime) / (1000 * 60 * 60 * 24))
            | _ => None
            end in
          Some (Position.mk contractId question answerText url outcome shares
                            saleValue fairValue slippage probability
                            daysUntilClose returnIfCorrect)
      end.

(** [positions.push(...)] for the holdings of one contract. *)
Definition processMetricsList (currentTime : R) (contractId : string)
    (contract : Contract.t) (mechanism : string)
    (metricsList : list Metrics.t) (positions : list Position.t)
    : list Position.t :=
  fold_left
    (fun positions metrics =>
       match processMetrics currentTime contractId contract mechanism metrics with
       | Some position => (positions ++ [position])%list
       | None => positions
       end)
    metricsList positions.

(** The body of the loop over [Object.entries(metricsByContract)]. *)
Definition processEntry (currentTime : R) (contractsLookup : Lookup)
    (positions : list Position.t) (entry : string * list Metrics.t)
    : list Position.t :=
  let '(contractId, metricsList) := entry in
  match contractsLookup contractId with
  | None => positions
  | Some contract =>
      if Contract.isResolved contract then positions
      else
        let mechanism := strOr (Contract.mechanism contract) "" in
        if negb (supported mechanism) then positions
        else
          processMetricsList currentTime contractId contract mechanism
                             metricsList positions
  end.

(** [processPositions(rawData)].  The value of [Date.now()] read by the run
    is the explicit argument [currentTime]. *)
Definition processPositions (currentTime : R) (rawData : RawData.t)
    : list Position.t :=
  let contracts := listOr (RawData.contracts rawData) in
  let metricsByContract := listOr (RawData.metricsByContract rawData) in
  let contractsLookup := buildLookup contracts in
  fold_left (processEntry currentTime contractsLookup) metricsByContract [].

(** ** Ranking *)

(** [MARGIN_RATE_DAILY = 0.0003] and
    [MARGIN_RATE_ANNUAL = MARGIN_RATE_DAILY * 365] are computed once, when
    the script is loaded.  The definitions give the two doubles exactly:
    the double nearest to [0.0003], and the product rounded to a double,
    [0.10949999999999999] (one unit in the last place below [0.1095]). *)
Definition MARGIN_RATE_DAILY : R :=
  5534023222112865 / 18446744073709551616.
Definition MARGIN_RATE_ANNUAL : R :=
  1972576636788277 / 18014398509481984.

(** [r !== null]. *)
Definition notNull (r : option num) : bool :=
  match r with
  | Some _ => true
  | None => false
  end.

(** [r < MARGIN_RATE_ANNUAL] and [r >= MARGIN_RATE_ANNUAL]; [null]
    converts to [0]. *)
Definition ltMargin (r : option num) : bool :=
  match r with
  | Some x => nltb x (Fin MARGIN_RATE_ANNUAL)
  | None => 0 <? MARGIN_RATE_ANNUAL
  end.

Definition geMargin (r : option num) : bool :=
  match r with
  | Some x => nleb (Fin MARGIN_RATE_ANNUAL) x
  | None => MARGIN_RATE_ANNUAL <=? 0
  end.

(** [r || 0]: [null], [NaN] and [0] are falsy. *)
Definition retOrZero (r : option num) : R :=
  match r with
  | Some (Fin x) => x
  | _ => 0
  end.

(** [Array.prototype.sort(compare)]: the sort is stable, and for a
    consistent comparator its result is the stable ordering of the array,
    computed here by insertion. *)
Fixpoint insertBy {A : Type} (compare : A -> A -> R) (x : A) (l : list A)
    : list A :=
  match l with
  | [] => [x]
  | y :: rest =>
      if 0 <? compare x y then y :: insertBy compare x rest
      else x :: y :: rest
  end.

Definition sortBy {A : Type} (compare : A -> A -> R) (l : list A) : list A :=
  fold_right (insertBy compare) [] l.

Definition ascending (a b : Position.t) : R :=
  retOrZero (Position.returnIfCorrect a) - retOrZero (Position.returnIfCorrect b).

Definition descending (a b : Position.t) : R :=
  retOrZero (Position.returnIfCorrect b) - retOrZero (Position.returnIfCorrect a).

(** [getPositionsBelowMarginRate(positions)]. *)
Definition getPositionsBelowMarginRate (positions : list Position.t)
    : list Position.t :=
  sortBy ascending
    (filter (fun p => notNull (Position.returnIfCorrect p)
                      && ltMargin (Position.returnIfCorrect p))
            positions).

(** [getAllPositionsSorted(positions)]. *)
Definition getAllPositionsSorted (positions : list Position.t)
    : list Position.t :=
  let withReturns :=
    filter (fun p => notNull (Position.returnIfCorrect p)) positions in
  let belowMargin :=
    filter (fun p => ltMargin (Position.returnIfCorrect p)) withReturns in
  let aboveMargin :=
    filter (fun p => geMargin (Position.returnIfCorrect p)) withReturns in
  let belowMargin := sortBy ascending belowMargin in
  let aboveMargin := sortBy descending aboveMargin in
  (belowMargin ++ aboveMargin)%list.

(** ** Sample data *)

(** The pool [{YES: 50, NO: 50}] and the pool [{YES: 1, NO: 1}]. *)
Definition pool5050 : YesNo := mkYesNo (number 50) (number 50).
Definition unitPool : YesNo := mkYesNo (number 1) (number 1).

(** The pool [{YES: 1, NO: 3}]. *)
Definition pool13 : YesNo := mkYesNo (number 1) (number 3).

(** Thirty days and two days in milliseconds. *)
Definition thirtyDays : R := 30 * (1000 * 60 * 60 * 24).
Definition twoDays : R := 2 * (1000 * 60 * 60 * 24).
Definition oneDay : R := 1000 * 60 * 60 * 24.

(** ** Auxiliary notions for the statements *)

(** What a loop round adds to [positions]. *)
Definition pushed (o : option Position.t) : list Position.t :=
  match o with
  | Some position => [position]
  | None => []
  end.

(** A record without its two time-dependent fields. *)
Definition timeless (pos : Position.t) : Position.t :=
  Position.mk (Position.contractId pos) (Position.question pos)
              (Position.answer pos) (Position.url pos)
              (Position.outcome pos) (Position.shares pos)
              (Position.saleValue pos) (Position.fairValue pos)
              (Position.slippage pos) (Position.probability pos)
              None None.

(** A single-outcome market closing at [twoDays] with probability [0.5]
    and no pool, and a holding of 10 YES shares. *)
Definition contractPlain : Contract.t :=
  Contract.mk "m" false (Some "cpmm-1") (number twoDays) (Some "Q") None None
              undefined (number (1 / 2)) None None.

Definition holdingYes10 : Metrics.t :=
  Metrics.mk (Some (mkYesNo (number 10) undefined)) None.

Definition rawPlain : RawData.t :=
  RawData.mk (Some [contractPlain]) (Some [("m", [holdingYes10])]).

(** A single-outcome market whose record has neither [prob] nor [pool]. *)
Definition contractNoProb : Contract.t :=
  Contract.mk "m" false (Some "cpmm-1") undefined None None None
              undefined undefined None None.

Definition rawNoProb : RawData.t :=
  RawData.mk (Some [contractNoProb]) (Some [("m", [holdingYes10])]).

(** The valuation of [holdingYes10] in [rawPlain] at a clock reading. *)
Definition posPlainAt (currentTime : R) : Position.t :=
  Position.mk "m" "Q" None "" "YES" 10 (Fin 5) (Fin 5) (Fin 0)
    (number (1 / 2))
    (Some ((twoDays - currentTime) / oneDay))
    (Some (Fin ((10 - 5) / 5 *
                (365 / Rmax ((twoDays - currentTime) / oneDay) 1)))).

(** The return of a record with a numeric [returnIfCorrect]. *)
Definition ret (pos : Position.t) : R :=
  retOrZero (Position.returnIfCorrect pos).

(** [returnIfCorrect] is present and below the margin rate. *)
Definition belowMargin (pos : Position.t) : bool :=
  match Position.returnIfCorrect pos with
  | Some (Fin x) => x <? MARGIN_RATE_ANNUAL
  | _ => false
  end.

(** [returnIfCorrect] is present and at or above the margin rate. *)
Definition atOrAboveMargin (pos : Position.t) : bool :=
  match Position.returnIfCorrect pos with
  | Some (Fin x) => MARGIN_RATE_ANNUAL <=? x
  | _ => false
  end.

(** A share count of [2^53]. *)
Definition largeShares : R := 2 ^ 53.

(** A single-outcome market whose [prob] is [null], with the pool
    [{YES: 1, NO: 1}], a holding of [8/3] YES shares, and its valuation. *)
Definition contractNullProb : Contract.t :=
  Contract.mk "m" false (Some "cpmm-1") undefined None None None
              undefined null (Some unitPool) None.

Definition holdingYes83 : Metrics.t :=
  Metrics.mk (Some (mkYesNo (number (8 / 3)) undefined)) None.

Definition rawFallback : RawData.t :=
  RawData.mk (Some [contractNullProb]) (Some [("m", [holdingYes83])]).

Definition posFallback : Position.t :=
  Position.mk "m" "Unknown" None "" "YES" (8 / 3) (Fin (2 / 3)) (Fin (4 / 3))
              (Fin (1 / 2)) (number (1 / 2)) None None.

(** ** The application glue of [app.js] *)

(** [positions.filter(p => p.returnIfCorrect < MARGIN_RATE_ANNUAL)], as
    computed in [displayResults]. *)
Definition belowMarginPositions (positions : list Position.t)
    : list Position.t :=
  filter (fun p => ltMargin (Position.returnIfCorrect p)) positions.

(** [belowMarginCount] of [analyzePortfolio], computed on
    [allPositionsSorted]. *)
Definition belowMarginCount (allPositionsSorted : list Position.t) : nat :=
  List.length (filter (fun p => ltMargin (Position.returnIfCorrect p))
                      allPositionsSorted).

Definition nadd : num -> num -> num := nlift2 Rplus.

(** The totals of [displayResults], over the records with
    [returnIfCorrect < MARGIN_RATE_ANNUAL] of the list shown. *)
Definition totalSaleValue (positions : list Position.t) : num :=
  fold_left (fun sum p => nadd sum (Position.saleValue p))
            (belowMarginPositions positions) (Fin 0).

Definition totalPayout (positions : list Position.t) : R :=
  fold_left (fun sum p => sum + Position.shares p)
            (belowMarginPositions positions) 0.

(** The comparator of [sortPositions] on a column of numbers: the value
    of the column with [null] and [undefined] read as [0], and the
    difference of two values, where the [NaN] of a comparison counts as
    [0] in [Array.prototype.sort].  The columns of strings ([question],
    [contractId], [url], [outcome], [answer]) are compared by
    [localeCompare] and are not part of the model. *)
Definition stringColumn (key : string) : bool :=
  existsb (String.eqb key) ["question"; "contractId"; "url"; "outcome"; "answer"].

Definition columnValue (key : string) (p : Position.t) : num :=
  if (key =? "payout")%string then Fin (Position.shares p)
  else if (key =? "shares")%string then Fin (Position.shares p)
  else if (key =? "saleValue")%string then Position.saleValue p
  else if (key =? "fairValue")%string then Position.fairValue p
  else if (key =? "slippage")%string then Position.slippage p
  else if (key =? "probability")%string then
    match Position.probability p with
    | number x => Fin x
    | _ => Fin 0
    end
  else if (key =? "daysUntilClose")%string then
    match Position.daysUntilClose p with
    | Some d => Fin d
    | None => Fin 0
    end
  else if (key =? "returnIfCorrect")%string then
    match Position.returnIfCorrect p with
    | Some x => x
    | None => Fin 0
    end
  else Fin 0.

Definition comparison (d : num) : R :=
  match d with
  | Fin x => x
  | NaN => 0
  end.

(** [sortPositions(positions, key, direction)] for a column of numbers. *)
Definition sortPositions (positions : list Position.t) (key direction : string)
    : list Position.t :=
  sortBy (fun a b =>
            let aVal := columnValue key a in
            let bVal := columnValue key b in
            if (direction =? "asc")%string then comparison (nsub aVal bVal)
            else comparison (nsub bVal aVal))
         positions.

(** ** Retrieval *)

(** The reply of the server to one request of [getUserPositions]:
    [response.ok] false with its status, or the parsed body with its
    fields [metricsByContract] and [contracts]. *)
Inductive Response : Type :=
| NotOk (status : nat)
| Ok (metricsByContract : option (list (string * list Metrics.t)))
     (contracts : option (list Contract.t)).

(** The property write [obj[k] = v] on an object given by its entries:
    an existing key keeps its place, a new key goes last (the keys are
    contract ids, not array indices). *)
Fixpoint setProperty (obj : list (string * list Metrics.t)) (k : string)
    (v : list Metrics.t) : list (string * list Metrics.t) :=
  match obj with
  | [] => [(k, v)]
  | (k', v') :: rest =>
      if (k' =? k)%string then (k', v) :: rest
      else (k', v') :: setProperty rest k v
  end.

(** The property read [obj[k]]. *)
Fixpoint getProperty (obj : list (string * list Metrics.t)) (k : string)
    : option (list Metrics.t) :=
  match obj with
  | [] => None
  | (k', v') :: rest =>
      if (k' =? k)%string then Some v' else getProperty rest k
  end.

(** [Object.assign(target, source)]. *)
Definition objectAssign (target source : list (string * list Metrics.t))
    : list (string * list Metrics.t) :=
  fold_left (fun obj kv => setProperty obj (fst kv) (snd kv)) source target.

(** How a call of [getUserPositions] ends: the error thrown for a reply
    that is not ok, or the object returned; [progress] lists the counts
    passed to [onProgress].  [Pending] stands for a loop that has not
    ended within the rounds considered. *)
Inductive Fetched : Type :=
| Threw (status : nat) (progress : list nat)
| Returned (rawData : RawData.t) (progress : list nat)
| Pending.

(** The [while (true)] loop of [getUserPositions]; [fetch offset] is the
    reply to the request with that offset and [limit = 100]. *)
Fixpoint fetchLoop (fetch : nat -> Response) (rounds offset : nat)
    (allMetrics : list (string * list Metrics.t))
    (allContracts : list Contract.t) (progress : list nat) : Fetched :=
  match rounds with
  | O => Pending
  | S rounds =>
      match fetch offset with
      | NotOk status => Threw status progress
      | Ok metricsByContract contracts =>
          let metricsByContract := listOr metricsByContract in
          let contracts := listOr contracts in
          if (List.length contracts =? 0)%nat then
            Returned (RawData.mk (Some allContracts) (Some allMetrics)) progress
          else
            let allMetrics := objectAssign allMetrics metricsByContract in
            let allContracts := (allContracts ++ contracts)%list in
            let progress := (progress ++ [List.length allContracts])%list in
            if (List.length contracts <? 100)%nat then
              Returned (RawData.mk (Some allContracts) (Some allMetrics))
                       progress
            else
              fetchLoop fetch rounds (offset + 100) allMetrics allContracts
                        progress
      end
  end.

(** [getUserPositions(userId, onProgress)] against the server [fetch]. *)
Definition getUserPositions (fetch : nat -> Response) (rounds : nat)
    : Fetched :=
  fetchLoop fetch rounds 0 [] [] [].

(** A server that holds the contracts [stored] and replies to every
    request with the page of at most 100 contracts at the offset. *)
Definition pagedServer (stored : list Contract.t)
    (metricsAt : nat -> option (list (string * list Metrics.t)))
    (offset : nat) : Response :=
  Ok (metricsAt offset) (Some (firstn 100 (skipn offset stored))).

(** ** Sample servers and data for the retrieval and the statistics *)

(** A server whose first page is full and whose second request fails
    with status 500. *)
Definition failingSecondPage (offset : nat) : Response :=
  if (offset =? 0)%nat then Ok None (Some (repeat contractPlain 100))
  else NotOk 500.

(** Holdings of two pages: the second page lists the contract ["m"]
    again. *)
Definition firstPageMetrics : list (string * list Metrics.t) :=
  [("m", [holdingYes10]); ("k", [])].

Definition secondPageMetrics : list (string * list Metrics.t) :=
  [("m", [holdingYes83])].

Definition twoPages (offset : nat) : Response :=
  if (offset =? 0)%nat then
    Ok (Some firstPageMetrics) (Some (repeat contractPlain 100))
  else Ok (Some secondPageMetrics) (Some [contractPlain]).

(** A single-outcome market closing at [thirtyDays] with probability
    [0.999] and no pool, and the valuation of 10 YES shares at clock 0:
    its return is below the margin rate. *)
Definition contractSure : Contract.t :=
  Contract.mk "m" false (Some "cpmm-1") (number thirtyDays) (Some "Q") None
              None undefined (number (999 / 1000)) None None.

Definition rawSure : RawData.t :=
  RawData.mk (Some [contractSure]) (Some [("m", [holdingYes10])]).

Definition posSure : Position.t :=
  Position.mk "m" "Q" None "" "YES" 10 (Fin (999 / 100)) (Fin (999 / 100))
              (Fin 0) (number (999 / 1000)) (Some 30)
              (Some (Fin (73 / 5994))).

(** ** Reflection of the comparisons *)

Lemma Rltb_true (x y : R) : (x <? y) = true <-> x < y.
Proof. unfold Rltb; destruct (Rlt_dec x y); split; intros; try easy. Qed.

Lemma Rltb_false (x y : R) : (x <? y) = false <-> y <= x.
Proof.
  unfold Rltb; destruct (Rlt_dec x y); split; intros; try easy; lra.
Qed.

Lemma Rleb_true (x y : R) : (x <=? y) = true <-> x <= y.
Proof. unfold Rleb; destruct (Rle_dec x y); split; intros; try easy. Qed.

Lemma Rleb_false (x y : R) : (x <=? y) = false <-> y < x.
Proof.
  unfold Rleb; destruct (Rle_dec x y); split; intros; try easy; lra.
Qed.

Lemma Reqb_true (x y : R) : Reqb x y = true <-> x = y.
Proof. unfold Reqb; destruct (Req_dec_T x y); split; intros; try easy. Qed.

Lemma Reqb_false (x y : R) : Reqb x y = false <-> x <> y.
Proof. unfold Reqb; destruct (Req_dec_T x y); split; intros; try easy. Qed.

Lemma orElse_zero (x : R) : orElse (number x) 0 = x.
Proof.
  unfold orElse. destruct (Reqb x 0) eqn:E; [|reflexivity].
  apply Reqb_true in E. now subst.
Qed.

Lemma positive_orElse (v : value) : positive v = (0 <? orElse v 0).
Proof.
  destruct v as [| |x]; simpl.
  - symmetry. apply Rltb_false. lra.
  - symmetry. apply Rltb_false. lra.
  - destruct (Reqb x 0) eqn:E; [|reflexivity].
    apply Reqb_true in E. now subst.
Qed.

Ltac reflect_cmp :=
  repeat match goal with
  | H : (_ <? _) = true |- _ => apply Rltb_true in H
  | H : (_ <? _) = false |- _ => apply Rltb_false in H
  | H : (_ <=? _) = true |- _ => apply Rleb_true in H
  | H : (_ <=? _) = false |- _ => apply Rleb_false in H
  | H : Reqb _ _ = true |- _ => apply Reqb_true in H
  | H : Reqb _ _ = false |- _ => apply Reqb_false in H
  end.


Lemma supported_iff (mechanism : string) :
  supported mechanism = true <->
  mechanism = "cpmm-1"%string \/ mechanism = "cpmm-multi-1"%string.
Proof.
  unfold supported; simpl. rewrite !orb_true_iff, !String.eqb_eq.
  intuition discriminate.
Qed.

(** ** The search interval of the binary search *)

Section Bisect.
Variable received : R -> R.
Variable shares : R.

Lemma bisect_accept (i : nat) (lo hi m : R) :
    Rabs (received ((lo + hi) / 2) - shares) < 1 / 10000 ->
    bisect received shares (S i) lo hi m = (lo + hi) / 2.
  Proof.
    intros H. simpl. apply Rltb_true in H. now rewrite H.
  Qed.

Lemma bisect_raise (i : nat) (lo hi m : R) :
    1 / 10000 <= Rabs (received ((lo + hi) / 2) - shares) ->
    received ((lo + hi) / 2) < shares ->
    bisect received shares (S i) lo hi m =
    bisect received shares i ((lo + hi) / 2) hi ((lo + hi) / 2).
  Proof.
    intros H1 H2. simpl.
    apply Rltb_false in H1. apply Rltb_true in H2. now rewrite H1, H2.
  Qed.


  (** Every value of [mid] stays between the current bounds. *)
Lemma bisect_between (i : nat) :
    forall lo hi m, lo <= hi -> lo <= m <= hi ->
    lo <= bisect received shares i lo hi m <= hi.
  Proof.
    induction i as [|i IH]; intros lo hi m Hle Hm; cbn [bisect]; [exact Hm|].
    cbv zeta. destruct (Rabs _ <? _); [lra|].
    destruct (received _ <? shares).
    - assert (H : (lo + hi) / 2 <=
                  bisect received shares i ((lo + hi) / 2) hi ((lo + hi) / 2)
                  <= hi) by (apply IH; lra).
      lra.
    - assert (H : lo <=
                  bisect received shares i lo ((lo + hi) / 2) ((lo + hi) / 2)
                  <= (lo + hi) / 2) by (apply IH; lra).
      lra.
  Qed.

Lemma bisect_within (i : nat) (lo hi m : R) :
    lo <= hi -> lo <= bisect received shares (S i) lo hi m <= hi.
  Proof.
    intros Hle.
    replace (bisect received shares (S i) lo hi m)
      with (bisect received shares (S i) lo hi lo) by reflexivity.
    apply bisect_between; lra.
  Qed.

  (** The loop either accepts a midpoint that yields the target to within
      [1e-4], or runs all its rounds, each halving the interval, and
      returns the last midpoint, an end of the final interval. *)
Lemma bisect_halving (i : nat) :
    forall lo hi m, lo <= hi ->
    let r := bisect received shares (S i) lo hi m in
    Rabs (received r - shares) < 1 / 10000 \/
    exists a b, lo <= a /\ a <= b /\ b <= hi /\
                b - a = (hi - lo) / 2 ^ (S i) /\ (r = a \/ r = b).
  Proof.
    induction i as [|i IH]; intros lo hi m Hle r; subst r.
    - cbn [bisect]. cbv zeta.
      destruct (Rabs _ <? _) eqn:E1; [left; now apply Rltb_true in E1|].
      right. destruct (received _ <? shares).
      + exists ((lo + hi) / 2), hi. repeat split; try lra; now left.
      + exists lo, ((lo + hi) / 2). repeat split; try lra; now right.
    - change (bisect received shares (S (S i)) lo hi m) with
        (let mid := (lo + hi) / 2 in
         if Rabs (received mid - shares) <? 1 / 10000 then mid
         else if received mid <? shares
              then bisect received shares (S i) mid hi mid
              else bisect received shares (S i) lo mid mid).
      cbv zeta.
      destruct (Rabs _ <? _) eqn:E1; [left; now apply Rltb_true in E1|].
      destruct (received _ <? shares).
      + assert (Hle' : (lo + hi) / 2 <= hi) by lra.
        destruct (IH ((lo + hi) / 2) hi ((lo + hi) / 2) Hle') as [H|H]; [now left|].
        right. destruct H as (a & b & Ha & Hab & Hb & Hw & Hr).
        exists a, b. do 3 (split; [lra|]). split; [|exact Hr].
        rewrite Hw. change (2 ^ S (S i)) with (2 * 2 ^ S i).
        assert (0 < 2 ^ S i) by (apply pow_lt; lra). field. lra.
      + assert (Hle' : lo <= (lo + hi) / 2) by lra.
        destruct (IH lo ((lo + hi) / 2) ((lo + hi) / 2) Hle') as [H|H]; [now left|].
        right. destruct H as (a & b & Ha & Hab & Hb & Hw & Hr).
        exists a, b. do 3 (split; [lra|]). split; [|exact Hr].
        rewrite Hw. change (2 ^ S (S i)) with (2 * 2 ^ S i).
        assert (0 < 2 ^ S i) by (apply pow_lt; lra). field. lra.
  Qed.

(** When [received] is strictly increasing on the interval and the amount
    [root] that yields exactly [shares] lies inside it, the search keeps
    [root] between its bounds: the result is accepted within [1e-4], or it
    is within the final interval width of [root]. *)
Lemma bisect_bracket (root : R) (i : nat) :
  forall lo hi m,
  (forall a b, lo <= a -> a < b -> b <= hi -> received a < received b) ->
  lo <= root <= hi -> received root = shares ->
  let r := bisect received shares (S i) lo hi m in
  Rabs (received r - shares) < 1 / 10000 \/
  Rabs (r - root) <= (hi - lo) / 2 ^ (S i).
Proof.
  induction i as [|i IH]; intros lo hi m Hinc Hroot Hf r; subst r.
  - cbn [bisect]. cbv zeta.
    destruct (Rabs _ <? _) eqn:E1; [left; now apply Rltb_true in E1|].
    right.
    assert (H : Rabs ((lo + hi) / 2 - root) <= (hi - lo) / 2 ^ 1).
    { apply Rabs_le. simpl. lra. }
    now destruct (received _ <? shares).
  - change (bisect received shares (S (S i)) lo hi m) with
      (let mid := (lo + hi) / 2 in
       if Rabs (received mid - shares) <? 1 / 10000 then mid
       else if received mid <? shares
            then bisect received shares (S i) mid hi mid
            else bisect received shares (S i) lo mid mid).
    cbv zeta.
    destruct (Rabs _ <? _) eqn:E1; [left; now apply Rltb_true in E1|].
    assert (Hw : forall w, w / 2 / 2 ^ S i = w / 2 ^ S (S i)).
    { intros w. change (2 ^ S (S i)) with (2 * 2 ^ S i).
      assert (0 < 2 ^ S i) by (apply pow_lt; lra). field. lra. }
    destruct (received _ <? shares) eqn:E2; reflect_cmp.
    + assert (Hmid : (lo + hi) / 2 < root).
      { destruct (Rlt_le_dec ((lo + hi) / 2) root) as [H|H]; [exact H|].
        exfalso. destruct H as [H|H].
        - assert (received root < received ((lo + hi) / 2))
            by (apply Hinc; lra).
          lra.
        - rewrite H in Hf. lra. }
      destruct (IH ((lo + hi) / 2) hi ((lo + hi) / 2)) as [H|H];
        [intros a b Ha Hab Hb; apply Hinc; lra | lra | exact Hf
        | now left | ].
      right. rewrite <- Hw.
      replace ((hi - lo) / 2) with (hi - (lo + hi) / 2) by lra. exact H.
    + assert (Hmid : root <= (lo + hi) / 2).
      { destruct (Rle_lt_dec root ((lo + hi) / 2)) as [H|H]; [exact H|].
        exfalso.
        assert (received ((lo + hi) / 2) < received root)
          by (apply Hinc; lra).
        lra. }
      destruct (IH lo ((lo + hi) / 2) ((lo + hi) / 2)) as [H|H];
        [intros a b Ha Hab Hb; apply Hinc; lra | lra | exact Hf
        | now left | ].
      right. rewrite <- Hw.
      replace ((hi - lo) / 2) with ((lo + hi) / 2 - lo) by lra. exact H.
Qed.

(** When every amount up to the last midpoint yields too few shares, each
    round raises the lower bound. *)
Lemma bisect_all_raise (hi : R) (i : nat) :
  forall lo m,
  (forall x, lo <= x <= hi - (hi - lo) / 2 ^ (S i) ->
     received x < shares /\ 1 / 10000 <= Rabs (received x - shares)) ->
  lo <= hi ->
  bisect received shares (S i) lo hi m = hi - (hi - lo) / 2 ^ (S i).
Proof.
  induction i as [|i IH]; intros lo m Hx Hle.
  - assert (Hm : lo <= (lo + hi) / 2 <= hi - (hi - lo) / 2 ^ 1)
      by (simpl; lra).
    destruct (Hx _ Hm) as [H1 H2].
    rewrite bisect_raise by assumption. simpl. lra.
  - assert (Hp : 0 < 2 ^ S i) by (apply pow_lt; lra).
    assert (Hw : (hi - lo) / 2 ^ S (S i) = (hi - lo) / 2 / 2 ^ S i).
    { change (2 ^ S (S i)) with (2 * 2 ^ S i). field. lra. }
    assert (Hq : 0 <= (hi - lo) / 2 / 2 ^ S i <= (hi - lo) / 2).
    { split.
      - apply Rmult_le_pos; [lra|]. left. now apply Rinv_0_lt_compat.
      - apply Rmult_le_reg_r with (2 ^ S i); [exact Hp|].
        unfold Rdiv at 1. rewrite Rmult_assoc, Rinv_l by lra.
        assert (1 <= 2 ^ S i) by (apply pow_R1_Rle; lra). nra. }
    assert (Hm : lo <= (lo + hi) / 2 <= hi - (hi - lo) / 2 ^ S (S i))
      by (rewrite Hw; lra).
    destruct (Hx _ Hm) as [H1 H2].
    rewrite bisect_raise by assumption.
    rewrite IH.
    + rewrite Hw. replace (hi - (lo + hi) / 2) with ((hi - lo) / 2) by lra.
      reflexivity.
    + intros x Hxr. apply Hx. rewrite Hw.
      replace (hi - (lo + hi) / 2) with ((hi - lo) / 2) in Hxr by lra. lra.
    + lra.
Qed.
End Bisect.

(** ** The probability estimate and the lower bound *)

Lemma poolProb_unit_interval (pool : YesNo) :
  0 <= orElse (YES pool) 0 -> 0 <= orElse (NO pool) 0 ->
  0 <= poolProb pool <= 1.
Proof.
  intros Hy Hn. unfold poolProb.
  destruct (_ <? _) eqn:E; reflect_cmp; [|lra].
  split.
  - apply Rmult_le_pos; [lra|]. left. now apply Rinv_0_lt_compat.
  - apply Rmult_le_reg_r with (orElse (YES pool) 0 + orElse (NO pool) 0);
      [lra|].
    unfold Rdiv. rewrite Rmult_assoc, Rinv_l by lra. lra.
Qed.

Lemma lowerBound_range (pool : YesNo) (shares : R) (outcome : string) :
  0 <= orElse (YES pool) 0 -> 0 <= orElse (NO pool) 0 -> 0 <= shares ->
  0 <= lowerBound pool shares outcome <= shares.
Proof.
  intros Hy Hn Hs. pose proof (poolProb_unit_interval pool Hy Hn) as Hp.
  unfold lowerBound. destruct (_ =? _)%string; nra.
Qed.

Lemma amount_in_search_interval (pool : YesNo) (p shares : R) (outcome : string) :
  0 < shares ->
  lowerBound pool shares outcome <= shares ->
  lowerBound pool shares outcome
  <= calculateAmountToBuyShares pool p shares outcome <= shares.
Proof.
  intros Hs Hlb. unfold calculateAmountToBuyShares.
  destruct (_ <=? _) eqn:E; reflect_cmp; [lra|].
  now apply bisect_within.
Qed.

Lemma amount_nonpositive_shares (pool : YesNo) (p shares : R) (outcome : string) :
  shares <= 0 -> calculateAmountToBuyShares pool p shares outcome = 0.
Proof.
  intros Hs. unfold calculateAmountToBuyShares.
  apply Rleb_true in Hs. now rewrite Hs.
Qed.

Lemma amount_range (pool : YesNo) (p shares : R) (outcome : string) :
  0 <= orElse (YES pool) 0 -> 0 <= orElse (NO pool) 0 -> 0 <= shares ->
  0 <= calculateAmountToBuyShares pool p shares outcome <= shares.
Proof.
  intros Hy Hn Hs. destruct (Rle_lt_dec shares 0) as [H0|H0].
  - rewrite amount_nonpositive_shares by exact H0. lra.
  - pose proof (lowerBound_range pool shares outcome Hy Hn Hs) as Hlb.
    pose proof (amount_in_search_interval pool p shares outcome H0) as Ha.
    lra.
Qed.

(** The search of [calculateAmountToBuyShares]: over the interval from the
    lower bound to [shares], at most 50 rounds, each halving the interval;
    the result is a midpoint accepted within [1e-4] of the target or an
    end of the final interval. *)
Lemma amount_search_structure (pool : YesNo) (p shares : R) (outcome : string) :
  0 < shares ->
  lowerBound pool shares outcome <= shares ->
  let r := calculateAmountToBuyShares pool p shares outcome in
  Rabs (calculateCpmmShares pool p r outcome - shares) < 1 / 10000 \/
  exists a b,
    lowerBound pool shares outcome <= a /\ a <= b /\ b <= shares /\
    b - a = (shares - lowerBound pool shares outcome) / 2 ^ 50 /\
    (r = a \/ r = b).
Proof.
  intros Hs Hlb. unfold calculateAmountToBuyShares.
  replace (shares <=? 0) with false by (symmetry; apply Rleb_false; lra).
  cbv zeta.
  exact (bisect_halving (fun mid => calculateCpmmShares pool p mid outcome)
                        shares 49 _ _ 0 Hlb).
Qed.

(** ** The liquidation valuator *)

(** C1.  With a supported mechanism and both pool reserves strictly
    positive, [calculateSaleValue] is [max(0, shares - cost)] where [cost]
    is [calculateAmountToBuyShares] for the opposite outcome: ['NO'] for
    a holding of ['YES'], and ['YES'] for any other holding.  With an
    unsupported mechanism or a reserve that is not positive it is [0]. *)
Theorem calculateSaleValue_spec
    (shares : R) (outcome : string) (pool : YesNo) (p : R)
    (mechanism : string) :
  0 < p < 1 -> 0 <= shares ->
  ((mechanism = "cpmm-1"%string \/ mechanism = "cpmm-multi-1"%string) ->
   0 < orElse (YES pool) 0 -> 0 < orElse (NO pool) 0 ->
   (outcome = "YES"%string ->
    calculateSaleValue shares outcome pool p mechanism =
    Rmax 0 (shares - calculateAmountToBuyShares pool p shares "NO"))
   /\
   (outcome <> "YES"%string ->
    calculateSaleValue shares outcome pool p mechanism =
    Rmax 0 (shares - calculateAmountToBuyShares pool p shares "YES")))
  /\
  (~ (mechanism = "cpmm-1"%string \/ mechanism = "cpmm-multi-1"%string)
   \/ orElse (YES pool) 0 <= 0 \/ orElse (NO pool) 0 <= 0 ->
   calculateSaleValue shares outcome pool p mechanism = 0).
Proof.
  intros _ _. unfold calculateSaleValue. split.
  - intros Hm Hy Hn. apply supported_iff in Hm. rewrite Hm. cbn [negb].
    apply Rleb_false in Hy, Hn. rewrite Hy, Hn. cbn [orb]. cbv zeta.
    unfold opposite. split.
    + intros ->. cbn [String.eqb Ascii.eqb Bool.eqb].
      match goal with |- ?v = ?v => exact eq_refl end.
    + intros Ho. apply String.eqb_neq in Ho. rewrite Ho.
      match goal with |- ?v = ?v => exact eq_refl end.
  - intros H. destruct (supported mechanism) eqn:Es; [|reflexivity].
    cbn [negb]. destruct H as [H|[H|H]].
    + apply supported_iff in Es. contradiction.
    + apply Rleb_true in H. now rewrite H.
    + apply Rleb_true in H. rewrite H. now rewrite orb_true_r.
Qed.

(** C3.  The liquidation value lies between [0] and [shares]; for a pool
    of the data model (both reserves at least [0]) the amount returned by
    [calculateAmountToBuyShares] lies between [0] and [shares]. *)
Theorem liquidation_value_bounds
    (shares : R) (outcome : string) (pool : YesNo) (p : R)
    (mechanism : string) :
  0 <= shares ->
  0 <= calculateSaleValue shares outcome pool p mechanism <= shares
  /\
  (0 < shares -> 0 <= orElse (YES pool) 0 -> 0 <= orElse (NO pool) 0 ->
   0 <= calculateAmountToBuyShares pool p shares outcome <= shares).
Proof.
  intros Hs. split.
  - unfold calculateSaleValue.
    destruct (negb _); [lra|]. cbv zeta.
    destruct (orElse (YES pool) 0 <=? 0) eqn:Ey; [cbn [orb]; lra|].
    destruct (orElse (NO pool) 0 <=? 0) eqn:En; [cbn [orb]; lra|].
    cbn [orb]. reflect_cmp.
    assert (Ha : 0 <= calculateAmountToBuyShares pool p shares (opposite outcome)
                 <= shares) by (apply amount_range; lra).
    unfold Rmax. destruct (Rle_dec _ _); lra.
  - intros H0 Hy Hn. apply amount_range; lra.
Qed.

Lemma liquidation_value_bounds_witness :
  0 <= calculateSaleValue 10 "YES" pool5050 (1 / 2) "cpmm-1" <= 10
  /\ 0 <= calculateAmountToBuyShares pool5050 (1 / 2) 10 "YES" <= 10.
Proof.
  assert (H : 0 <= 10) by lra.
  destruct (liquidation_value_bounds 10 "YES" pool5050 (1 / 2) "cpmm-1" H)
    as [H1 H2].
  split; [exact H1|].
  apply H2; unfold pool5050; cbn [YES NO]; rewrite ?orElse_zero; lra.
Defined.

(** ** The share formula on the pool [{YES: 1, NO: 1}] *)

Lemma Math_pow_positive_base (x y : R) : 0 < x -> Math_pow x y = Rpower x y.
Proof.
  intros Hx. unfold Math_pow.
  destruct (Reqb y 0) eqn:E; reflect_cmp.
  - subst. now rewrite Rpower_O.
  - apply Rltb_true in Hx. now rewrite Hx.
Qed.

Lemma Rpower_base_one (y : R) : Rpower 1 y = 1.
Proof. unfold Rpower. now rewrite ln_1, Rmult_0_r, exp_0. Qed.

Lemma Rpower_neg_nat (x : R) (n : nat) :
  0 < x -> Rpower x (- INR n) = / x ^ n.
Proof. intros Hx. now rewrite Rpower_Ropp, Rpower_pow. Qed.

Lemma poolProb_unitPool : poolProb unitPool = 1 / 2.
Proof.
  unfold poolProb, unitPool; cbn [YES NO]. rewrite orElse_zero.
  replace (0 <? 1 + 1) with true by (symmetry; apply Rltb_true; lra).
  lra.
Qed.

Lemma lowerBound_unitPool_YES (shares : R) :
  lowerBound unitPool shares "YES" = shares * (1 / 2).
Proof. unfold lowerBound. cbn [String.eqb]. simpl. now rewrite poolProb_unitPool. Qed.

Lemma shares_unitPool_YES (p a : R) :
  0 < p < 1 -> 0 < a ->
  calculateCpmmShares unitPool p a "YES" =
  1 + a - Rpower (a + 1) ((p - 1) * (1 / p)).
Proof.
  intros Hp Ha. unfold calculateCpmmShares, unitPool; cbn [YES NO].
  replace (Reqb a 0) with false by (symmetry; apply Reqb_false; lra).
  rewrite orElse_zero. simpl String.eqb. cbv iota zeta.
  rewrite !(Math_pow_positive_base 1) by lra.
  rewrite !Rpower_base_one, Rmult_1_l.
  rewrite (Math_pow_positive_base (a + 1)) by lra.
  rewrite Rmult_1_l.
  rewrite Math_pow_positive_base by (unfold Rpower; apply exp_pos).
  now rewrite Rpower_mult.
Qed.

(** With [p = 0.5] the formula is [1 + a - 1 / (a + 1)]. *)
Lemma shares_unitPool_half (a : R) :
  0 < a -> calculateCpmmShares unitPool (1 / 2) a "YES" = 1 + a - / (a + 1).
Proof.
  intros Ha. rewrite shares_unitPool_YES by lra.
  replace ((1 / 2 - 1) * (1 / (1 / 2))) with (- INR 1) by (simpl; field).
  rewrite Rpower_neg_nat by lra. now rewrite pow_1.
Qed.

(** With [p = 0.25] the formula is [1 + a - 1 / (a + 1)^3]. *)
Lemma shares_unitPool_quarter (a : R) :
  0 < a ->
  calculateCpmmShares unitPool (1 / 4) a "YES" = 1 + a - / (a + 1) ^ 3.
Proof.
  intros Ha. rewrite shares_unitPool_YES by lra.
  replace ((1 / 4 - 1) * (1 / (1 / 4))) with (- INR 3) by (simpl; field).
  now rewrite Rpower_neg_nat by lra.
Qed.

Example shares_quarter_at_quarter :
  calculateCpmmShares unitPool (1 / 4) (1 / 4) "YES" = 369 / 500.
Proof. rewrite shares_unitPool_quarter by lra. field. Qed.

(** ** Cost of shares: zero, bounds and monotonicity *)






(** ** The lower search bound on a pool with [p = 0.25] *)

Lemma amount_quarter_in_interval :
  369 / 1000
  <= calculateAmountToBuyShares unitPool (1 / 4) (369 / 500) "YES"
  <= 369 / 500.
Proof.
  assert (H : lowerBound unitPool (369 / 500) "YES" = 369 / 1000)
    by (rewrite lowerBound_unitPool_YES; lra).
  rewrite <- H at 1. apply amount_in_search_interval; [lra|]. rewrite H. lra.
Qed.

(** C2 at [{YES: 1, NO: 1}], [p = 0.25]: spending [0.25] on YES buys exactly
    [0.738] shares, yet the lower search bound for [0.738] shares is
    [0.369], and the amount returned is at least that bound. *)
Theorem lower_bound_exceeds_true_cost :
  calculateCpmmShares unitPool (1 / 4) (1 / 4) "YES" = 369 / 500
  /\ lowerBound unitPool (369 / 500) "YES" = 369 / 1000
  /\ 1 / 4 < 369 / 1000
     <= calculateAmountToBuyShares unitPool (1 / 4) (369 / 500) "YES".
Proof.
  split; [apply shares_quarter_at_quarter|].
  split; [rewrite lowerBound_unitPool_YES; lra|].
  pose proof amount_quarter_in_interval. lra.
Qed.

(** At the same input the shares bought with the returned amount exceed
    the target [0.738] by more than [0.2]. *)
Lemma round_trip_off_target :
  let cost := calculateAmountToBuyShares unitPool (1 / 4) (369 / 500) "YES" in
  let back := calculateCpmmShares unitPool (1 / 4) cost "YES" in
  1 / 5 < back - 369 / 500 /\ ~ Rabs (back - 369 / 500) <= 1 / 1000.
Proof.
  cbv zeta.
  pose proof amount_quarter_in_interval as Hr.
  set (r := calculateAmountToBuyShares unitPool (1 / 4) (369 / 500) "YES") in *.
  rewrite shares_unitPool_quarter by lra.
  assert (Hx : 5 / 2 <= (r + 1) ^ 3).
  { assert (H1 : 1369 / 1000 <= r + 1) by lra.
    assert (H2 : (1369 / 1000) * (1369 / 1000) <= (r + 1) * (r + 1)) by nra.
    simpl. nra. }
  assert (Hi : / (r + 1) ^ 3 <= / (5 / 2))
    by (apply Rinv_le_contravar; lra).
  replace (/ (5 / 2)) with (2 / 5) in Hi by field.
  assert (Hd : 1 / 5 < 1 + r - / (r + 1) ^ 3 - 369 / 500) by lra.
  split; [exact Hd|].
  intros Habs. pose proof (Rle_abs (1 + r - / (r + 1) ^ 3 - 369 / 500)). lra.
Qed.

(** ** Monotonicity of the share formula and the round trip *)

Lemma Rpower_negative_exponent_antitone (x x' c : R) :
  c < 0 -> 0 < x -> x < x' -> Rpower x' c < Rpower x c.
Proof.
  intros Hc Hx Hlt. unfold Rpower. apply exp_increasing.
  assert (ln x < ln x') by (apply ln_increasing; lra). nra.
Qed.

(** Spending more buys more shares. *)
Lemma shares_increasing (pool : YesNo) (p : R) (outcome : string) (a b : R) :
  0 < orElse (YES pool) 0 -> 0 < orElse (NO pool) 0 -> 0 < p < 1 ->
  0 < a -> a < b ->
  calculateCpmmShares pool p a outcome < calculateCpmmShares pool p b outcome.
Proof.
  intros Hy Hn Hp Ha Hab. unfold calculateCpmmShares.
  replace (Reqb a 0) with false by (symmetry; apply Reqb_false; lra).
  replace (Reqb b 0) with false by (symmetry; apply Reqb_false; lra).
  cbv zeta.
  set (y := orElse (YES pool) 0) in *. set (n := orElse (NO pool) 0) in *.
  rewrite (Math_pow_positive_base y), (Math_pow_positive_base n) by lra.
  set (k := Rpower y p * Rpower n (1 - p)).
  assert (Hk : 0 < k)
    by (apply Rmult_lt_0_compat; unfold Rpower; apply exp_pos).
  assert (Hpos : forall x c, 0 < k * Rpower x c)
    by (intros; apply Rmult_lt_0_compat; [exact Hk|unfold Rpower; apply exp_pos]).
  assert (Hip : 0 < 1 / p) by (apply Rdiv_lt_0_compat; lra).
  assert (Hiq : 0 < 1 / (1 - p)) by (apply Rdiv_lt_0_compat; lra).
  destruct (outcome =? "YES")%string.
  - rewrite (Math_pow_positive_base (a + n)), (Math_pow_positive_base (b + n))
      by lra.
    rewrite !Math_pow_positive_base by apply Hpos.
    assert (H1 : Rpower (b + n) (p - 1) < Rpower (a + n) (p - 1))
      by (apply Rpower_negative_exponent_antitone; lra).
    assert (H2 : Rpower (k * Rpower (b + n) (p - 1)) (1 / p)
                 <= Rpower (k * Rpower (a + n) (p - 1)) (1 / p)).
    { apply Rle_Rpower_l; [lra|]. split; [apply Hpos|]. nra. }
    lra.
  - rewrite (Math_pow_positive_base (a + y)), (Math_pow_positive_base (b + y))
      by lra.
    rewrite !Math_pow_positive_base by apply Hpos.
    assert (H1 : Rpower (b + y) (- p) < Rpower (a + y) (- p))
      by (apply Rpower_negative_exponent_antitone; lra).
    assert (H2 : Rpower (k * Rpower (b + y) (- p)) (1 / (1 - p))
                 <= Rpower (k * Rpower (a + y) (- p)) (1 / (1 - p))).
    { apply Rle_Rpower_l; [lra|]. split; [apply Hpos|]. nra. }
    lra.
Qed.

Lemma poolProb_strict (pool : YesNo) :
  0 < orElse (YES pool) 0 -> 0 < orElse (NO pool) 0 -> 0 < poolProb pool < 1.
Proof.
  intros Hy Hn. unfold poolProb.
  replace (0 <? orElse (YES pool) 0 + orElse (NO pool) 0) with true
    by (symmetry; apply Rltb_true; lra).
  split.
  - apply Rdiv_lt_0_compat; lra.
  - apply Rmult_lt_reg_r with (orElse (YES pool) 0 + orElse (NO pool) 0);
      [lra|].
    unfold Rdiv. rewrite Rmult_assoc, Rinv_l by lra. lra.
Qed.

Lemma lowerBound_positive (pool : YesNo) (shares : R) (outcome : string) :
  0 < orElse (YES pool) 0 -> 0 < orElse (NO pool) 0 -> 0 < shares ->
  0 < lowerBound pool shares outcome < shares.
Proof.
  intros Hy Hn Hs. pose proof (poolProb_strict pool Hy Hn) as Hp.
  unfold lowerBound. destruct (_ =? _)%string; nra.
Qed.

(** On [{YES: 1, NO: 1}] with [p = 0.5] and [2^53] YES shares every round
    raises the lower bound; the amount returned is [2^53 - 4]. *)
Lemma cost_of_largeShares :
  calculateAmountToBuyShares unitPool (1 / 2) largeShares "YES"
  = largeShares - 4.
Proof.
  unfold calculateAmountToBuyShares, largeShares.
  replace (2 ^ 53 <=? 0) with false by (symmetry; apply Rleb_false; lra).
  cbv zeta. rewrite lowerBound_unitPool_YES.
  rewrite bisect_all_raise.
  - change (S 49) with 50%nat. field_simplify. lra.
  - intros x [Hx1 Hx2].
    assert (Hx3 : x <= 2 ^ 53 - 4)
      by (change (S 49) with 50%nat in Hx2; lra).
    rewrite shares_unitPool_half by lra.
    assert (0 < / (x + 1)) by (apply Rinv_0_lt_compat; lra).
    split; [lra|].
    rewrite Rabs_left by lra. lra.
  - lra.
Qed.

(** C5, as stated, fails: on [{YES: 1, NO: 1}] with [p = 0.5] and [2^53]
    YES shares the 50 rounds end at [2^53 - 4], and the shares bought
    with that amount miss the target by more than [3]. *)
Lemma round_trip_large_shares :
  ~ Rabs (calculateCpmmShares unitPool (1 / 2)
            (calculateAmountToBuyShares unitPool (1 / 2) largeShares "YES")
            "YES"
          - largeShares) <= 1 / 1000.
Proof.
  rewrite cost_of_largeShares. unfold largeShares.
  rewrite shares_unitPool_half by lra.
  assert (0 < / (2 ^ 53 - 4 + 1)) by (apply Rinv_0_lt_compat; lra).
  rewrite Rabs_left by lra. lra.
Qed.

(** C5, amended.  For a pool with positive reserves, [p] in (0,1) and
    [shares > 0], when the amount [root] that buys exactly [shares] lies
    in the search interval, the round trip is within [1e-4] of [shares]
    (a midpoint was accepted), or the amount returned is within
    [(shares - lowerBound) / 2^50] of [root]. *)
Theorem round_trip_when_bracketed
    (pool : YesNo) (p shares : R) (outcome : string) (root : R) :
  0 < orElse (YES pool) 0 -> 0 < orElse (NO pool) 0 -> 0 < p < 1 ->
  0 < shares ->
  lowerBound pool shares outcome <= root <= shares ->
  calculateCpmmShares pool p root outcome = shares ->
  let cost := calculateAmountToBuyShares pool p shares outcome in
  Rabs (calculateCpmmShares pool p cost outcome - shares) < 1 / 10000
  \/ Rabs (cost - root) <= (shares - lowerBound pool shares outcome) / 2 ^ 50.
Proof.
  intros Hy Hn Hp Hs Hroot Hf. cbv zeta.
  pose proof (lowerBound_positive pool shares outcome Hy Hn Hs) as Hlb.
  unfold calculateAmountToBuyShares.
  replace (shares <=? 0) with false by (symmetry; apply Rleb_false; lra).
  cbv zeta.
  apply (bisect_bracket (fun mid => calculateCpmmShares pool p mid outcome)
                        shares root 49).
  - intros a b Ha Hab Hb. apply shares_increasing; try assumption. lra.
  - exact Hroot.
  - exact Hf.
Qed.

Lemma round_trip_when_bracketed_witness :
  let cost := calculateAmountToBuyShares unitPool (1 / 2) (3 / 2) "YES" in
  Rabs (calculateCpmmShares unitPool (1 / 2) cost "YES" - 3 / 2) < 1 / 10000
  \/ Rabs (cost - 1) <= (3 / 2 - lowerBound unitPool (3 / 2) "YES") / 2 ^ 50.
Proof.
  apply (round_trip_when_bracketed unitPool (1 / 2) (3 / 2) "YES" 1).
  - unfold unitPool; cbn [YES]; rewrite orElse_zero; lra.
  - unfold unitPool; cbn [NO]; rewrite orElse_zero; lra.
  - lra.
  - lra.
  - rewrite lowerBound_unitPool_YES. lra.
  - rewrite shares_unitPool_half by lra. field.
Defined.

(** ** The return estimator *)

(** C6.  For a clock reading [currentTime >= 0] (milliseconds since the
    epoch), [calculateReturnIfCorrect] is [null] exactly when [closeTime]
    is absent, or [daysUntilClose <= 0], or [saleValue <= 0]; for every
    other input it is the number
    [(shares - saleValue) / saleValue * (365 / max(daysUntilClose, 1))]. *)
Theorem calculateReturnIfCorrect_spec
    (saleValue shares : R) (closeTime : value) (currentTime : R) :
  0 <= currentTime ->
  let result :=
    calculateReturnIfCorrect (Fin saleValue) shares closeTime currentTime in
  let days c := (c - currentTime) / (1000 * 60 * 60 * 24) in
  (result = None <->
     closeTime = undefined \/ closeTime = null \/
     exists c, closeTime = number c /\ (days c <= 0 \/ saleValue <= 0))
  /\
  (forall c, closeTime = number c -> 0 < days c -> 0 < saleValue ->
     result =
     Some (Fin ((shares - saleValue) / saleValue * (365 / Rmax (days c) 1)))).
Proof.
  intros Hnow result days. subst result. unfold calculateReturnIfCorrect.
  assert (Hday : 0 < 1000 * 60 * 60 * 24) by lra.
  destruct closeTime as [| |c].
  - split; [split; auto|]. intros c Hc. discriminate.
  - split; [split; auto|]. intros c Hc. discriminate.
  - destruct (Reqb c 0) eqn:E0; reflect_cmp.
    + subst c.
      assert (Hd : days 0 <= 0).
      { unfold days, Rdiv.
        assert (0 < / (1000 * 60 * 60 * 24)) by now apply Rinv_0_lt_compat.
        nra. }
      split.
      * split; [|reflexivity]. intros _. right. right. exists 0. auto.
      * intros c Hc Hpos. injection Hc as <-. lra.
    + fold (days c). cbn [nleb].
      destruct (days c <=? 0) eqn:Ed; reflect_cmp.
      * cbn [orb]. split.
        -- split; [|reflexivity]. intros _. right. right. exists c. auto.
        -- intros c' Hc Hpos. injection Hc as <-. lra.
      * destruct (saleValue <=? 0) eqn:Es; reflect_cmp; cbn [orb].
        -- split.
           ++ split; [|reflexivity]. intros _. right. right. exists c. auto.
           ++ intros c' Hc _ Hpos. lra.
        -- split.
           ++ split; [discriminate|].
              intros [H|[H|(c' & Hc & H)]]; try discriminate.
              injection Hc as <-. lra.
           ++ intros c' Hc _ _. injection Hc as <-. reflexivity.
Qed.

Lemma calculateReturnIfCorrect_spec_witness :
  calculateReturnIfCorrect (Fin 5) 10 (number thirtyDays) 0 =
  Some (Fin ((10 - 5) / 5 *
             (365 / Rmax ((thirtyDays - 0) / (1000 * 60 * 60 * 24)) 1))).
Proof.
  assert (H0 : 0 <= 0) by lra.
  destruct (calculateReturnIfCorrect_spec 5 10 (number thirtyDays) 0 H0)
    as [_ H].
  apply H; [reflexivity| |lra].
  unfold thirtyDays. lra.
Defined.

(** ** The pipeline as a concatenation *)

Lemma processMetricsList_app (currentTime : R) (contractId : string)
    (contract : Contract.t) (mechanism : string)
    (metricsList : list Metrics.t) :
  forall positions,
  processMetricsList currentTime contractId contract mechanism metricsList
                     positions =
  (positions ++
   flat_map (fun metrics =>
               pushed (processMetrics currentTime contractId contract
                                      mechanism metrics))
            metricsList)%list.
Proof.
  unfold processMetricsList.
  induction metricsList as [|m ml IH]; intros positions; simpl.
  - now rewrite app_nil_r.
  - rewrite IH. destruct (processMetrics _ _ _ _ m); simpl.
    + now rewrite <- app_assoc.
    + reflexivity.
Qed.

Lemma processEntry_app (currentTime : R) (contractsLookup : Lookup)
    (positions : list Position.t) (entry : string * list Metrics.t) :
  processEntry currentTime contractsLookup positions entry =
  (positions ++ processEntry currentTime contractsLookup [] entry)%list.
Proof.
  unfold processEntry. destruct entry as [contractId metricsList].
  destruct (contractsLookup contractId) as [contract|];
    [|now rewrite app_nil_r].
  destruct (Contract.isResolved contract); [now rewrite app_nil_r|].
  destruct (negb _); [now rewrite app_nil_r|].
  now rewrite !processMetricsList_app.
Qed.

Lemma processPositions_flat_map (currentTime : R) (rawData : RawData.t) :
  processPositions currentTime rawData =
  flat_map
    (processEntry currentTime
                  (buildLookup (listOr (RawData.contracts rawData))) [])
    (listOr (RawData.metricsByContract rawData)).
Proof.
  unfold processPositions.
  generalize (buildLookup (listOr (RawData.contracts rawData))) as lk.
  intros lk.
  assert (H : forall entries acc,
             fold_left (processEntry currentTime lk) entries acc =
             (acc ++ flat_map (processEntry currentTime lk []) entries)%list).
  { induction entries as [|e es IH]; intros acc; simpl.
    - now rewrite app_nil_r.
    - rewrite IH, (processEntry_app _ _ acc). now rewrite <- app_assoc. }
  now rewrite H.
Qed.


(** A record is in the output exactly when some holding of a present,
    unresolved market with a supported mechanism produces it. *)
Lemma In_processPositions (currentTime : R) (rawData : RawData.t)
    (pos : Position.t) :
  In pos (processPositions currentTime rawData) <->
  exists contractId metricsList contract metrics,
    In (contractId, metricsList) (listOr (RawData.metricsByContract rawData))
    /\ buildLookup (listOr (RawData.contracts rawData)) contractId = Some contract
    /\ Contract.isResolved contract = false
    /\ supported (strOr (Contract.mechanism contract) "") = true
    /\ In metrics metricsList
    /\ processMetrics currentTime contractId contract
                      (strOr (Contract.mechanism contract) "") metrics
       = Some pos.
Proof.
  rewrite processPositions_flat_map, in_flat_map. split.
  - intros ([contractId metricsList] & Hin & Hpos).
    unfold processEntry in Hpos.
    destruct (buildLookup _ contractId) as [contract|] eqn:Hl; [|contradiction].
    destruct (Contract.isResolved contract) eqn:Hres; [contradiction|].
    destruct (supported _) eqn:Hsup; [|contradiction]. cbn [negb] in Hpos.
    rewrite processMetricsList_app in Hpos. cbn [app] in Hpos.
    apply in_flat_map in Hpos. destruct Hpos as (metrics & Hm & Hp).
    exists contractId, metricsList, contract, metrics.
    repeat split; auto.
    destruct (processMetrics _ _ _ _ metrics) as [q|]; [|contradiction].
    destruct Hp as [->|[]]. reflexivity.
  - intros (contractId & metricsList & contract & metrics
            & Hin & Hl & Hres & Hsup & Hm & Hp).
    exists (contractId, metricsList). split; [exact Hin|].
    unfold processEntry. rewrite Hl, Hres, Hsup. cbn [negb].
    rewrite processMetricsList_app. cbn [app].
    apply in_flat_map. exists metrics. split; [exact Hm|].
    rewrite Hp. now left.
Qed.

(** ** Running the pipeline on sample data *)

(** Decide the comparisons between closed numbers in the goal. *)
Ltac decide_cmp :=
  repeat
    (cbv beta iota zeta;
     match goal with
     | |- context [Reqb ?x ?y] =>
         first [ replace (Reqb x y) with true
                   by (symmetry; apply Reqb_true; lra)
               | replace (Reqb x y) with false
                   by (symmetry; apply Reqb_false; lra) ]
     | |- context [?x <? ?y] =>
         first [ replace (x <? y) with true
                   by (symmetry; apply Rltb_true; lra)
               | replace (x <? y) with false
                   by (symmetry; apply Rltb_false; lra) ]
     | |- context [?x <=? ?y] =>
         first [ replace (x <=? y) with true
                   by (symmetry; apply Rleb_true; lra)
               | replace (x <=? y) with false
                   by (symmetry; apply Rleb_false; lra) ]
     end);
  cbv beta iota zeta.

Ltac run_pipeline :=
  unfold processPositions, processEntry, processMetricsList, processMetrics,
    buildLookup, assign, emptyLookup, resolve, fallbackProbability,
    calculateSimpleSaleValue, calculateReturnIfCorrect, calculateSaleValue,
    listOr, objOr, strOr, orElse, positive, supported;
  cbn [fold_left RawData.contracts RawData.metricsByContract
       Contract.id Contract.isResolved Contract.mechanism Contract.closeTime
       Contract.question Contract.slug Contract.creatorUsername Contract.p
       Contract.prob Contract.pool Contract.answers
       Metrics.totalShares Metrics.answerId YES NO
       r_probability r_answerText r_pool
       String.eqb Ascii.eqb Bool.eqb existsb negb orb andb app
       toNumber nmul nsub ndiv nlift2 nltb nleb truthyId].

Lemma processPositions_rawPlain (currentTime : R) :
  currentTime < twoDays ->
  processPositions currentTime rawPlain = [posPlainAt currentTime].
Proof.
  intros Ht. unfold rawPlain, contractPlain, holdingYes10, posPlainAt.
  run_pipeline.
  assert (Hd : 0 < (twoDays - currentTime) / (1000 * 60 * 60 * 24)).
  { apply Rdiv_lt_0_compat; lra. }
  assert (H2 : twoDays <> 0) by (unfold twoDays; lra).
  replace (Reqb twoDays 0) with false by (symmetry; now apply Reqb_false).
  decide_cmp. run_pipeline. decide_cmp.
  replace ((twoDays - currentTime) / (1000 * 60 * 60 * 24) <=? 0) with false
    by (symmetry; apply Rleb_false; lra).
  run_pipeline. decide_cmp. unfold oneDay.
  repeat f_equal; lra.
Qed.

Lemma processPositions_rawNoProb (currentTime : R) :
  processPositions currentTime rawNoProb =
  [Position.mk "m" "Unknown" None "" "YES" 10 NaN NaN (Fin 0) undefined
               None None].
Proof.
  unfold rawNoProb, contractNoProb, holdingYes10.
  run_pipeline. decide_cmp. run_pipeline. decide_cmp. reflexivity.
Qed.

(** ** The fields of a valuation *)

(** The guard [pool.YES > 0 && pool.NO > 0] around the call of
    [calculateSaleValue] repeats the test made inside it. *)
Lemma guarded_sale_value (shares : R) (outcome : string) (pool : YesNo)
    (p : R) (mechanism : string) :
  (if positive (YES pool) && positive (NO pool)
   then calculateSaleValue shares outcome pool p mechanism else 0)
  = calculateSaleValue shares outcome pool p mechanism.
Proof.
  rewrite !positive_orElse. unfold calculateSaleValue.
  destruct (negb _); [now destruct (_ && _)|]. cbv zeta.
  destruct (0 <? orElse (YES pool) 0) eqn:Ey;
    destruct (0 <? orElse (NO pool) 0) eqn:En;
    cbn [andb]; try reflexivity; reflect_cmp.
  - replace (orElse (NO pool) 0 <=? 0) with true
      by (symmetry; now apply Rleb_true).
    now rewrite orb_true_r.
  - replace (orElse (YES pool) 0 <=? 0) with true
      by (symmetry; now apply Rleb_true).
    reflexivity.
  - replace (orElse (YES pool) 0 <=? 0) with true
      by (symmetry; now apply Rleb_true).
    reflexivity.
Qed.

Lemma processMetrics_fields (currentTime : R) (contractId : string)
    (contract : Contract.t) (mechanism : string) (metrics : Metrics.t)
    (pos : Position.t) :
  processMetrics currentTime contractId contract mechanism metrics = Some pos ->
  let pool := r_pool (resolve contract mechanism (Metrics.answerId metrics)) in
  let ammValue :=
    calculateSaleValue (Position.shares pos) (Position.outcome pos) pool
                       (orElse (Contract.p contract) (1 / 2)) mechanism in
  (Position.outcome pos = "YES"%string \/ Position.outcome pos = "NO"%string)
  /\ Position.fairValue pos =
     calculateSimpleSaleValue (Position.shares pos) (Position.probability pos)
                              (Position.outcome pos)
  /\ Position.saleValue pos =
     (if 0 <? ammValue then Fin ammValue else Position.fairValue pos)
  /\ Position.slippage pos =
     (if nltb (Fin 0) (Position.fairValue pos) && (0 <? ammValue)
      then ndiv (nsub (Position.fairValue pos) (Fin ammValue))
                (Position.fairValue pos)
      else Fin 0).
Proof.
  unfold processMetrics. cbv zeta.
  destruct (_ && _); [discriminate|].
  destruct (_ <? 1 / 100); [discriminate|].
  destruct (fallbackProbability _ _) as [probability|]; [|discriminate].
  rewrite guarded_sale_value.
  intros H. injection H as <-. cbn [Position.outcome Position.shares
    Position.fairValue Position.saleValue Position.slippage
    Position.probability].
  split; [destruct (_ <? _); auto|]. auto.
Qed.



(** ** Which holdings are valued *)

(** The exact condition under which the loop body pushes a record. *)
Lemma processMetrics_emits (currentTime : R) (contractId : string)
    (contract : Contract.t) (mechanism : string) (metrics : Metrics.t) :
  let totalShares := objOr (Metrics.totalShares metrics) in
  let yesShares := orElse (YES totalShares) 0 in
  let noShares := orElse (NO totalShares) 0 in
  let st := resolve contract mechanism (Metrics.answerId metrics) in
  (exists pos,
     processMetrics currentTime contractId contract mechanism metrics
     = Some pos)
  <->
  (0 < yesShares \/ 0 < noShares)
  /\ 1 / 100 <= Rmax yesShares noShares
  /\ (r_probability st <> null
      \/ (0 < orElse (YES (r_pool st)) 0 /\ 0 < orElse (NO (r_pool st)) 0)).
Proof.
  cbv zeta. unfold processMetrics. cbv zeta.
  set (yesShares := orElse (YES (objOr (Metrics.totalShares metrics))) 0).
  set (noShares := orElse (NO (objOr (Metrics.totalShares metrics))) 0).
  set (st := resolve contract mechanism (Metrics.answerId metrics)).
  assert (Hmax : (if noShares <? yesShares then yesShares else noShares)
                 = Rmax yesShares noShares).
  { unfold Rmax. destruct (noShares <? yesShares) eqn:E;
      destruct (Rle_dec yesShares noShares); reflect_cmp; lra. }
  rewrite Hmax.
  destruct (yesShares <=? 0) eqn:Ey; destruct (noShares <=? 0) eqn:En;
    cbn [andb]; reflect_cmp;
    try (split; [intros [pos H]; discriminate | intros [[H|H] _]; lra]).
  all: destruct (Rmax yesShares noShares <? 1 / 100) eqn:Ed; reflect_cmp;
    try (split; [intros [pos H]; discriminate | intros (_ & H & _); lra]).
  all: unfold fallbackProbability;
    destruct (r_probability st) eqn:Ep; cbv zeta.
  all: try (split; [intros _; repeat split; try lra;
                    try (left; discriminate); auto
                   | intros _; eexists; reflexivity]).
  all: destruct (0 <? orElse (YES (r_pool st)) 0) eqn:Py;
    destruct (0 <? orElse (NO (r_pool st)) 0) eqn:Pn;
    cbn [andb]; reflect_cmp.
  all: try (split; [intros [pos H]; discriminate
                   | intros (_ & _ & [H|[H1 H2]]); [congruence|lra]]).
  all: split; [intros _; repeat split; try lra; auto
              | intros _; eexists; reflexivity].
Qed.

(** When the probability read from the record is [null] or a number, a
    record is pushed exactly when the holding passes the share tests and
    the probability is a number or the pool gives the fallback. *)
Lemma processMetrics_emits_defined (currentTime : R) (contractId : string)
    (contract : Contract.t) (mechanism : string) (metrics : Metrics.t) :
  let totalShares := objOr (Metrics.totalShares metrics) in
  let yesShares := orElse (YES totalShares) 0 in
  let noShares := orElse (NO totalShares) 0 in
  let st := resolve contract mechanism (Metrics.answerId metrics) in
  r_probability st <> undefined ->
  ((exists pos,
      processMetrics currentTime contractId contract mechanism metrics
      = Some pos)
   <->
   (0 < yesShares \/ 0 < noShares)
   /\ 1 / 100 <= Rmax yesShares noShares
   /\ ((exists x, r_probability st = number x)
       \/ (0 < orElse (YES (r_pool st)) 0 /\ 0 < orElse (NO (r_pool st)) 0))).
Proof.
  cbv zeta. intros Hdef.
  rewrite (processMetrics_emits currentTime contractId contract mechanism metrics).
  cbv zeta.
  destruct (r_probability (resolve contract mechanism (Metrics.answerId metrics)))
    as [| |x] eqn:Ep.
  - contradiction.
  - split; intros (H1 & H2 & [H3|H3]); repeat split; auto;
      try contradiction.
    destruct H3 as [x Hx]. discriminate.
  - split; intros (H1 & H2 & _); repeat split; auto.
    + left. now exists x.
    + left. discriminate.
Qed.

(** C8 at a market whose record has no [prob] field and no pool: the
    probability read is [undefined], the test [probability === null] is
    false, and the holding is valued with an [undefined] probability and
    [NaN] values instead of being dropped. *)
Theorem holding_without_probability_is_valued (currentTime : R) :
  Contract.prob contractNoProb = undefined
  /\ positive (YES (objOr (Contract.pool contractNoProb))) = false
  /\ fallbackProbability undefined (objOr (Contract.pool contractNoProb))
     = Some undefined
  /\ processPositions currentTime rawNoProb =
     [Position.mk "m" "Unknown" None "" "YES" 10 NaN NaN (Fin 0) undefined
                  None None].
Proof.
  repeat split. apply processPositions_rawNoProb.
Qed.

(** ** Dependence on the clock *)

(** C10, as stated, fails: the same fetched data valued at two clock
    readings gives two different outputs. *)
Lemma output_depends_on_clock :
  processPositions 0 rawPlain <> processPositions oneDay rawPlain.
Proof.
  rewrite !processPositions_rawPlain by (unfold twoDays, oneDay; lra).
  unfold posPlainAt. intros H. injection H as H1 H2.
  unfold twoDays, oneDay in H1. lra.
Qed.

Lemma processMetrics_timeless (t1 t2 : R) (contractId : string)
    (contract : Contract.t) (mechanism : string) (metrics : Metrics.t) :
  option_map timeless
    (processMetrics t1 contractId contract mechanism metrics) =
  option_map timeless
    (processMetrics t2 contractId contract mechanism metrics).
Proof.
  unfold processMetrics. cbv zeta.
  destruct (_ && _); [reflexivity|].
  destruct (_ <? 1 / 100); [reflexivity|].
  destruct (fallbackProbability _ _); reflexivity.
Qed.

Lemma map_timeless_pushed (o : option Position.t) :
  map timeless (pushed o) = pushed (option_map timeless o).
Proof. now destruct o. Qed.

Lemma processEntry_timeless (t1 t2 : R) (contractsLookup : Lookup)
    (entry : string * list Metrics.t) :
  map timeless (processEntry t1 contractsLookup [] entry) =
  map timeless (processEntry t2 contractsLookup [] entry).
Proof.
  unfold processEntry. destruct entry as [contractId metricsList].
  destruct (contractsLookup contractId) as [contract|]; [|reflexivity].
  destruct (Contract.isResolved contract); [reflexivity|].
  destruct (negb _); [reflexivity|].
  rewrite !processMetricsList_app. cbn [app].
  induction metricsList as [|m ml IH]; [reflexivity|].
  cbn [flat_map]. rewrite !map_app, IH, !map_timeless_pushed.
  now rewrite (processMetrics_timeless t1 t2).
Qed.

(** C10, amended.  A run is a function of the fetched data and of the
    clock reading taken by the run: two runs on the same data, at any two
    clock readings, give sequences that agree record by record on every
    field except [daysUntilClose] and [returnIfCorrect]. *)
Theorem output_determined_up_to_clock (t1 t2 : R) (rawData : RawData.t) :
  map timeless (processPositions t1 rawData) =
  map timeless (processPositions t2 rawData).
Proof.
  rewrite !processPositions_flat_map.
  induction (listOr (RawData.metricsByContract rawData)) as [|e es IH];
    [reflexivity|].
  cbn [flat_map]. rewrite !map_app, IH.
  now rewrite (processEntry_timeless t1 t2).
Qed.

(** ** Ranking *)

Section SortBy.
Context {A : Type} (key : A -> R) (compare : A -> A -> R).
Hypothesis compare_key : forall a b, compare a b = key a - key b.

Let le (a b : A) : Prop := key a <= key b.

Lemma insertBy_perm (x : A) (l : list A) :
    Permutation (insertBy compare x l) (x :: l).
  Proof.
    induction l as [|y l IH]; simpl; [reflexivity|].
    destruct (0 <? compare x y); [|reflexivity].
    rewrite IH. apply perm_swap.
  Qed.

Lemma sortBy_perm (l : list A) : Permutation (sortBy compare l) l.
  Proof.
    induction l as [|x l IH]; simpl; [reflexivity|].
    rewrite insertBy_perm. now apply perm_skip.
  Qed.

Lemma insertBy_HdRel (a x : A) (l : list A) :
    le a x -> HdRel le a l -> HdRel le a (insertBy compare x l).
  Proof.
    intros Hax Hl. destruct l as [|y l]; simpl; [now constructor|].
    destruct (0 <? compare x y); constructor; auto.
    now inversion Hl.
  Qed.

Lemma insertBy_sorted (x : A) (l : list A) :
    Sorted le l -> Sorted le (insertBy compare x l).
  Proof.
    induction 1 as [|y l Hs IH Hhd]; simpl; [repeat constructor|].
    destruct (0 <? compare x y) eqn:E; reflect_cmp; rewrite compare_key in E.
    - constructor; [exact IH|]. apply insertBy_HdRel; [|exact Hhd].
      unfold le. lra.
    - constructor; [now constructor|]. constructor. unfold le. lra.
  Qed.

Lemma sortBy_sorted (l : list A) : Sorted le (sortBy compare l).
  Proof.
    induction l as [|x l IH]; simpl; [constructor|].
    now apply insertBy_sorted.
  Qed.
End SortBy.

Lemma filter_twice {A : Type} (f g : A -> bool) (l : list A) :
  filter f (filter g l) = filter (fun x => g x && f x) l.
Proof.
  induction l as [|x l IH]; simpl; [reflexivity|].
  destruct (g x); simpl; [destruct (f x)|]; now rewrite IH.
Qed.

Lemma below_filter (positions : list Position.t) :
  filter (fun p => notNull (Position.returnIfCorrect p)
                   && ltMargin (Position.returnIfCorrect p)) positions
  = filter belowMargin positions.
Proof.
  apply filter_ext. intros p. unfold belowMargin.
  now destruct (Position.returnIfCorrect p) as [[|x]|].
Qed.

Lemma above_filter (positions : list Position.t) :
  filter (fun p => notNull (Position.returnIfCorrect p)
                   && geMargin (Position.returnIfCorrect p)) positions
  = filter atOrAboveMargin positions.
Proof.
  apply filter_ext. intros p. unfold atOrAboveMargin.
  now destruct (Position.returnIfCorrect p) as [[|x]|].
Qed.

Lemma belowMargin_numeric (p : Position.t) :
  belowMargin p = true ->
  Position.returnIfCorrect p = Some (Fin (ret p)) /\ ret p < MARGIN_RATE_ANNUAL.
Proof.
  unfold belowMargin, ret.
  destruct (Position.returnIfCorrect p) as [[|x]|]; try discriminate.
  intros H. apply Rltb_true in H. auto.
Qed.

Lemma atOrAboveMargin_numeric (p : Position.t) :
  atOrAboveMargin p = true ->
  Position.returnIfCorrect p = Some (Fin (ret p)) /\ MARGIN_RATE_ANNUAL <= ret p.
Proof.
  unfold atOrAboveMargin, ret.
  destruct (Position.returnIfCorrect p) as [[|x]|]; try discriminate.
  intros H. apply Rleb_true in H. auto.
Qed.

(** C9.  [getPositionsBelowMarginRate] returns exactly the records whose
    [returnIfCorrect] is present and below the margin rate, in ascending
    order of [returnIfCorrect].  [getAllPositionsSorted] returns those
    records in ascending order followed by the records at or above the
    margin rate in descending order; every record it returns has a numeric
    [returnIfCorrect], and every record of the first group has a smaller
    return than every record of the second. *)
Theorem ranking_spec (positions : list Position.t) :
  Permutation (getPositionsBelowMarginRate positions)
              (filter belowMargin positions)
  /\ Sorted (fun a b => ret a <= ret b) (getPositionsBelowMarginRate positions)
  /\ exists below above,
       getAllPositionsSorted positions = (below ++ above)%list
       /\ Permutation below (filter belowMargin positions)
       /\ Sorted (fun a b => ret a <= ret b) below
       /\ Permutation above (filter atOrAboveMargin positions)
       /\ Sorted (fun a b => ret b <= ret a) above
       /\ (forall b a, In b below -> In a above -> ret b < ret a)
       /\ (forall p, In p (getAllPositionsSorted positions) ->
             Position.returnIfCorrect p = Some (Fin (ret p))).
Proof.
  assert (Hasc : forall a b, ascending a b = ret a - ret b) by reflexivity.
  assert (Hdesc : forall a b,
             descending a b = (fun p => - ret p) a - (fun p => - ret p) b)
    by (intros; unfold descending, ret; lra).
  split; [|split].
  - unfold getPositionsBelowMarginRate. rewrite below_filter.
    apply sortBy_perm.
  - unfold getPositionsBelowMarginRate.
    apply (sortBy_sorted ret ascending Hasc).
  - unfold getAllPositionsSorted. cbv zeta.
    rewrite !filter_twice, below_filter, above_filter.
    set (below := sortBy ascending (filter belowMargin positions)).
    set (above := sortBy descending (filter atOrAboveMargin positions)).
    assert (Pb : Permutation below (filter belowMargin positions))
      by apply sortBy_perm.
    assert (Pa : Permutation above (filter atOrAboveMargin positions))
      by apply sortBy_perm.
    assert (Hb : forall p, In p below -> belowMargin p = true).
    { intros p Hp. apply (Permutation_in _ Pb) in Hp.
      now apply filter_In in Hp. }
    assert (Ha : forall p, In p above -> atOrAboveMargin p = true).
    { intros p Hp. apply (Permutation_in _ Pa) in Hp.
      now apply filter_In in Hp. }
    exists below, above. split; [reflexivity|].
    split; [exact Pb|].
    split; [apply (sortBy_sorted ret ascending Hasc)|].
    split; [exact Pa|].
    split.
    { pose proof (sortBy_sorted (fun p => - ret p) descending Hdesc
                    (filter atOrAboveMargin positions)) as Hs.
      fold above in Hs.
      eapply Sorted_ind with (P := fun l => Sorted (fun a b => ret b <= ret a) l);
        [constructor| |exact Hs].
      intros a l _ IH Hhd. constructor; [exact IH|].
      destruct Hhd; constructor. lra. }
    split.
    { intros b a Hinb Hina.
      apply Hb, belowMargin_numeric in Hinb.
      apply Ha, atOrAboveMargin_numeric in Hina. lra. }
    intros p Hp. apply in_app_or in Hp. destruct Hp as [Hp|Hp].
    + now apply Hb, belowMargin_numeric in Hp.
    + now apply Ha, atOrAboveMargin_numeric in Hp.
Qed.

(** * Further properties of the share formula *)

Section PositivePool.
Variable pool : YesNo.
Variable p : R.
Hypothesis Hy : 0 < orElse (YES pool) 0.
Hypothesis Hn : 0 < orElse (NO pool) 0.
Hypothesis Hp : 0 < p < 1.

Let y := orElse (YES pool) 0.
Let n := orElse (NO pool) 0.
Let k := Rpower y p * Rpower n (1 - p).

Lemma Rpower_positive (x c : R) : 0 < Rpower x c.
Proof. unfold Rpower. apply exp_pos. Qed.

(** The two branches of [calculateCpmmShares] with [Math.pow] replaced by
    the real power. *)
Lemma shares_YES_Rpower (a : R) :
  0 < a ->
  calculateCpmmShares pool p a "YES" =
  y + a - Rpower (k * Rpower (a + n) (p - 1)) (1 / p).
Proof.
  intros Ha. unfold calculateCpmmShares.
  replace (Reqb a 0) with false by (symmetry; apply Reqb_false; lra).
  cbv zeta. fold y n. simpl String.eqb. cbv iota.
  rewrite (Math_pow_positive_base y), (Math_pow_positive_base n) by assumption.
  fold k.
  rewrite (Math_pow_positive_base (a + n)) by (unfold n; lra).
  rewrite Math_pow_positive_base; [reflexivity|].
  apply Rmult_lt_0_compat; apply Rmult_lt_0_compat || apply Rpower_positive;
    apply Rpower_positive.
Qed.

Lemma shares_NO_Rpower (a : R) (outcome : string) :
  0 < a -> outcome <> "YES"%string ->
  calculateCpmmShares pool p a outcome =
  n + a - Rpower (k * Rpower (a + y) (- p)) (1 / (1 - p)).
Proof.
  intros Ha Ho. unfold calculateCpmmShares.
  replace (Reqb a 0) with false by (symmetry; apply Reqb_false; lra).
  cbv zeta. fold y n.
  apply String.eqb_neq in Ho. rewrite Ho.
  rewrite (Math_pow_positive_base y), (Math_pow_positive_base n) by assumption.
  fold k.
  rewrite (Math_pow_positive_base (a + y)) by (unfold y; lra).
  rewrite Math_pow_positive_base; [reflexivity|].
  apply Rmult_lt_0_compat; apply Rmult_lt_0_compat || apply Rpower_positive;
    apply Rpower_positive.
Qed.

Lemma k_positive : 0 < k.
Proof. apply Rmult_lt_0_compat; apply Rpower_positive. Qed.

Lemma Rpower_inverse_exponents (x c : R) :
  0 < x -> c <> 0 -> Rpower (Rpower x (1 / c)) c = x.
Proof.
  intros Hx Hc. rewrite Rpower_mult.
  replace (1 / c * c) with 1 by (field; exact Hc).
  now apply Rpower_1.
Qed.

Lemma Rpower_inverse_exponents' (x c : R) :
  0 < x -> c <> 0 -> Rpower (Rpower x c) (1 / c) = x.
Proof.
  intros Hx Hc. rewrite Rpower_mult.
  replace (c * (1 / c)) with 1 by (field; exact Hc).
  now apply Rpower_1.
Qed.

Lemma Rpower_cancel (x c : R) : 0 < x -> Rpower x c * Rpower x (- c) = 1.
Proof.
  intros Hx. rewrite <- Rpower_plus.
  replace (c + - c) with 0 by lra. now apply Rpower_O.
Qed.

(** What is left of the YES reserve after a YES purchase, and of the NO
    reserve after a NO purchase. *)
Lemma remaining_YES (a : R) :
  0 < a ->
  0 < y + a - calculateCpmmShares pool p a "YES" < y.
Proof.
  intros Ha. rewrite shares_YES_Rpower by exact Ha.
  replace (y + a - (y + a - Rpower (k * Rpower (a + n) (p - 1)) (1 / p)))
    with (Rpower (k * Rpower (a + n) (p - 1)) (1 / p)) by lra.
  split; [apply Rpower_positive|].
  assert (H1 : Rpower (a + n) (p - 1) < Rpower n (p - 1))
    by (apply Rpower_negative_exponent_antitone; unfold n; lra).
  assert (H2 : k * Rpower n (p - 1) = Rpower y p).
  { unfold k. rewrite Rmult_assoc.
    replace (p - 1) with (- (1 - p)) by lra.
    rewrite Rpower_cancel by exact Hn. lra. }
  assert (H3 : k * Rpower (a + n) (p - 1) < Rpower y p).
  { rewrite <- H2. apply Rmult_lt_compat_l; [apply k_positive|exact H1]. }
  apply Rlt_le_trans with (Rpower (Rpower y p) (1 / p));
    [|right; apply Rpower_inverse_exponents'; [exact Hy|lra]].
  apply Rlt_Rpower_l; [apply Rdiv_lt_0_compat; lra|].
  split; [|exact H3].
  apply Rmult_lt_0_compat; [apply k_positive|apply Rpower_positive].
Qed.

Lemma remaining_NO (a : R) (outcome : string) :
  0 < a -> outcome <> "YES"%string ->
  0 < n + a - calculateCpmmShares pool p a outcome < n.
Proof.
  intros Ha Ho. rewrite shares_NO_Rpower by assumption.
  replace (n + a - (n + a - Rpower (k * Rpower (a + y) (- p)) (1 / (1 - p))))
    with (Rpower (k * Rpower (a + y) (- p)) (1 / (1 - p))) by lra.
  split; [apply Rpower_positive|].
  assert (H1 : Rpower (a + y) (- p) < Rpower y (- p))
    by (apply Rpower_negative_exponent_antitone; unfold y; lra).
  assert (H2 : k * Rpower y (- p) = Rpower n (1 - p)).
  { unfold k. rewrite (Rmult_comm (Rpower y p)), Rmult_assoc.
    rewrite Rpower_cancel by exact Hy. lra. }
  assert (H3 : k * Rpower (a + y) (- p) < Rpower n (1 - p)).
  { rewrite <- H2. apply Rmult_lt_compat_l; [apply k_positive|exact H1]. }
  apply Rlt_le_trans with (Rpower (Rpower n (1 - p)) (1 / (1 - p)));
    [|right; apply Rpower_inverse_exponents'; [exact Hn|lra]].
  apply Rlt_Rpower_l; [apply Rdiv_lt_0_compat; lra|].
  split; [|exact H3].
  apply Rmult_lt_0_compat; [apply k_positive|apply Rpower_positive].
Qed.

End PositivePool.

Lemma invariant_YES_Rpower (pool : YesNo) (p a : R) :
  0 < orElse (YES pool) 0 -> 0 < orElse (NO pool) 0 -> 0 < p < 1 -> 0 < a ->
  Rpower (orElse (YES pool) 0 + a - calculateCpmmShares pool p a "YES") p
  * Rpower (orElse (NO pool) 0 + a) (1 - p)
  = Rpower (orElse (YES pool) 0) p * Rpower (orElse (NO pool) 0) (1 - p).
Proof.
  intros Hy Hn Hp Ha. rewrite (shares_YES_Rpower pool p Hy Hn) by exact Ha.
  set (y := orElse (YES pool) 0) in *. set (n := orElse (NO pool) 0) in *.
  set (k := Rpower y p * Rpower n (1 - p)).
  assert (Hk : 0 < k) by (apply Rmult_lt_0_compat; apply Rpower_positive).
  replace (y + a - (y + a - Rpower (k * Rpower (a + n) (p - 1)) (1 / p)))
    with (Rpower (k * Rpower (a + n) (p - 1)) (1 / p)) by lra.
  rewrite Rpower_inverse_exponents;
    [|apply Rmult_lt_0_compat; [exact Hk|apply Rpower_positive]|lra].
  rewrite Rmult_assoc, (Rplus_comm n a).
  replace (p - 1) with (- (1 - p)) by lra.
  rewrite (Rmult_comm (Rpower (a + n) (- (1 - p)))), Rpower_cancel by lra.
  lra.
Qed.

Lemma invariant_NO_Rpower (pool : YesNo) (p a : R) (outcome : string) :
  0 < orElse (YES pool) 0 -> 0 < orElse (NO pool) 0 -> 0 < p < 1 -> 0 < a ->
  outcome <> "YES"%string ->
  Rpower (orElse (YES pool) 0 + a) p
  * Rpower (orElse (NO pool) 0 + a - calculateCpmmShares pool p a outcome) (1 - p)
  = Rpower (orElse (YES pool) 0) p * Rpower (orElse (NO pool) 0) (1 - p).
Proof.
  intros Hy Hn Hp Ha Ho.
  rewrite (shares_NO_Rpower pool p Hy Hn) by assumption.
  set (y := orElse (YES pool) 0) in *. set (n := orElse (NO pool) 0) in *.
  set (k := Rpower y p * Rpower n (1 - p)).
  assert (Hk : 0 < k) by (apply Rmult_lt_0_compat; apply Rpower_positive).
  replace (n + a - (n + a - Rpower (k * Rpower (a + y) (- p)) (1 / (1 - p))))
    with (Rpower (k * Rpower (a + y) (- p)) (1 / (1 - p))) by lra.
  rewrite Rpower_inverse_exponents;
    [|apply Rmult_lt_0_compat; [exact Hk|apply Rpower_positive]|lra].
  rewrite (Rplus_comm y a), (Rmult_comm k), <- Rmult_assoc.
  rewrite Rpower_cancel by lra. lra.
Qed.

Lemma shares_exceed_bet
    (pool : YesNo) (p a : R) (outcome : string) :
  0 < orElse (YES pool) 0 -> 0 < orElse (NO pool) 0 -> 0 < p < 1 -> 0 < a ->
  a < calculateCpmmShares pool p a outcome.
Proof.
  intros Hy Hn Hp Ha. destruct (outcome =? "YES")%string eqn:Eo.
  - apply String.eqb_eq in Eo. subst outcome.
    pose proof (remaining_YES pool p Hy Hn Hp a Ha). lra.
  - apply String.eqb_neq in Eo.
    pose proof (remaining_NO pool p Hy Hn Hp a outcome Ha Eo). lra.
Qed.

(** X1.  On a pool with positive reserves and [0 < p < 1], a positive bet
    buys more shares than the amount spent and fewer than the reserve of
    the bought side plus the amount: every share costs less than one unit,
    and the reserve of the bought side stays positive. *)
Theorem shares_between_bet_and_reserve
    (pool : YesNo) (p a : R) (outcome : string) :
  0 < orElse (YES pool) 0 -> 0 < orElse (NO pool) 0 -> 0 < p < 1 -> 0 < a ->
  a < calculateCpmmShares pool p a outcome
  /\ calculateCpmmShares pool p a outcome
     < (if (outcome =? "YES")%string then orElse (YES pool) 0
        else orElse (NO pool) 0) + a.
Proof.
  intros Hy Hn Hp Ha. destruct (outcome =? "YES")%string eqn:Eo.
  - apply String.eqb_eq in Eo. subst outcome.
    pose proof (remaining_YES pool p Hy Hn Hp a Ha). lra.
  - apply String.eqb_neq in Eo.
    pose proof (remaining_NO pool p Hy Hn Hp a outcome Ha Eo). lra.
Qed.

Lemma shares_between_bet_and_reserve_witness :
  1 < calculateCpmmShares pool5050 (1 / 2) 1 "YES"
  /\ calculateCpmmShares pool5050 (1 / 2) 1 "YES" < 50 + 1.
Proof.
  assert (Hy : 0 < orElse (YES pool5050) 0)
    by (unfold pool5050; cbn [YES]; rewrite orElse_zero; lra).
  assert (Hn : 0 < orElse (NO pool5050) 0)
    by (unfold pool5050; cbn [NO]; rewrite orElse_zero; lra).
  assert (Hp : 0 < 1 / 2 < 1) by lra.
  assert (Ha : 0 < 1) by lra.
  pose proof (shares_between_bet_and_reserve pool5050 (1 / 2) 1 "YES"
                Hy Hn Hp Ha) as H.
  simpl String.eqb in H. cbv iota in H.
  unfold pool5050 in H at 3. cbn [YES] in H. rewrite orElse_zero in H.
  exact H.
Defined.

(** X2.  A purchase keeps the weighted product of the reserves: with the
    bet added to both reserves and the shares bought taken out of the
    reserve of the bought side, [yes^p * no^(1-p)] is the same as before. *)
Theorem purchase_keeps_invariant (pool : YesNo) (p a : R) (outcome : string) :
  0 < orElse (YES pool) 0 -> 0 < orElse (NO pool) 0 -> 0 < p < 1 -> 0 < a ->
  let y := orElse (YES pool) 0 in
  let n := orElse (NO pool) 0 in
  let shares := calculateCpmmShares pool p a outcome in
  let y' := if (outcome =? "YES")%string then y + a - shares else y + a in
  let n' := if (outcome =? "YES")%string then n + a else n + a - shares in
  0 < y' /\ 0 < n'
  /\ Math_pow y' p * Math_pow n' (1 - p) = Math_pow y p * Math_pow n (1 - p).
Proof.
  intros Hy Hn Hp Ha. cbv zeta.
  destruct (outcome =? "YES")%string eqn:Eo.
  - apply String.eqb_eq in Eo. subst outcome.
    pose proof (remaining_YES pool p Hy Hn Hp a Ha) as Hr.
    split; [lra|]. split; [lra|].
    rewrite !Math_pow_positive_base by lra.
    now apply invariant_YES_Rpower.
  - apply String.eqb_neq in Eo.
    pose proof (remaining_NO pool p Hy Hn Hp a outcome Ha Eo) as Hr.
    split; [lra|]. split; [lra|].
    rewrite !Math_pow_positive_base by lra.
    now apply invariant_NO_Rpower.
Qed.

Lemma purchase_keeps_invariant_witness :
  Math_pow (50 + 1 - calculateCpmmShares pool5050 (1 / 2) 1 "YES") (1 / 2)
  * Math_pow (50 + 1) (1 - 1 / 2)
  = Math_pow 50 (1 / 2) * Math_pow 50 (1 - 1 / 2).
Proof.
  assert (Hy : 0 < orElse (YES pool5050) 0)
    by (unfold pool5050; cbn [YES]; rewrite orElse_zero; lra).
  assert (Hn : 0 < orElse (NO pool5050) 0)
    by (unfold pool5050; cbn [NO]; rewrite orElse_zero; lra).
  assert (Hp : 0 < 1 / 2 < 1) by lra.
  assert (Ha : 0 < 1) by lra.
  pose proof (purchase_keeps_invariant pool5050 (1 / 2) 1 "YES"
                Hy Hn Hp Ha) as H.
  cbv zeta in H. simpl String.eqb in H. cbv iota in H.
  destruct H as (_ & _ & H).
  unfold pool5050 in H at 1 3 4 5. cbn [YES NO] in H.
  rewrite !orElse_zero in H. exact H.
Defined.

(** X3.  On a pool with positive reserves and [0 < p < 1] the shares
    bought grow strictly with the amount spent, from the amount [0], for
    which the function returns [0] without evaluating the formula. *)
Theorem spending_more_buys_more
    (pool : YesNo) (p : R) (outcome : string) (a b : R) :
  0 < orElse (YES pool) 0 -> 0 < orElse (NO pool) 0 -> 0 < p < 1 ->
  0 <= a -> a < b ->
  calculateCpmmShares pool p a outcome < calculateCpmmShares pool p b outcome.
Proof.
  intros Hy Hn Hp Ha Hab. destruct Ha as [Ha | <-].
  - now apply shares_increasing.
  - assert (H0 : calculateCpmmShares pool p 0 outcome = 0).
    { unfold calculateCpmmShares.
      replace (Reqb 0 0) with true by (symmetry; now apply Reqb_true).
      reflexivity. }
    rewrite H0.
    assert (Hb : 0 < b) by lra.
    destruct outcome as [|c s] eqn:Eo.
    + pose proof (remaining_NO pool p Hy Hn Hp b "" Hb) as H.
      assert (Hne : ""%string <> "YES"%string) by discriminate.
      specialize (H Hne). lra.
    + destruct (String.eqb (String c s) "YES") eqn:E.
      * apply String.eqb_eq in E. rewrite E.
        pose proof (remaining_YES pool p Hy Hn Hp b Hb). lra.
      * apply String.eqb_neq in E.
        pose proof (remaining_NO pool p Hy Hn Hp b _ Hb E). lra.
Qed.

Lemma spending_more_buys_more_witness :
  calculateCpmmShares pool5050 (1 / 2) 0 "YES"
  < calculateCpmmShares pool5050 (1 / 2) 1 "YES".
Proof.
  apply spending_more_buys_more.
  - unfold pool5050; cbn [YES]; rewrite orElse_zero; lra.
  - unfold pool5050; cbn [NO]; rewrite orElse_zero; lra.
  - lra.
  - lra.
  - lra.
Defined.

(** ** The weight [p = 0.5] *)

Lemma Rpower_half_injective (u v : R) :
  0 < u -> 0 < v -> Rpower u (1 / 2) = Rpower v (1 / 2) -> u = v.
Proof.
  intros Hu Hv H.
  rewrite <- (Rpower_inverse_exponents' u (1 / 2)) by lra.
  rewrite <- (Rpower_inverse_exponents' v (1 / 2)) by lra.
  now rewrite H.
Qed.

(** With [p = 0.5] the product of the reserves is kept, which gives the
    shares in closed form. *)
Lemma shares_half_YES (pool : YesNo) (a : R) :
  0 < orElse (YES pool) 0 -> 0 < orElse (NO pool) 0 -> 0 < a ->
  calculateCpmmShares pool (1 / 2) a "YES" =
  orElse (YES pool) 0 + a
  - orElse (YES pool) 0 * orElse (NO pool) 0 / (orElse (NO pool) 0 + a).
Proof.
  intros Hy Hn Ha.
  assert (Hp : 0 < 1 / 2 < 1) by lra.
  pose proof (remaining_YES pool (1 / 2) Hy Hn Hp a Ha) as Hr.
  pose proof (invariant_YES_Rpower pool (1 / 2) a Hy Hn Hp Ha) as Hi.
  set (y := orElse (YES pool) 0) in *. set (n := orElse (NO pool) 0) in *.
  set (s := calculateCpmmShares pool (1 / 2) a "YES") in *.
  replace (1 - 1 / 2) with (1 / 2) in Hi by lra.
  rewrite !Rpower_mult_distr in Hi by lra.
  apply Rpower_half_injective in Hi;
    [|apply Rmult_lt_0_compat; lra|apply Rmult_lt_0_compat; lra].
  assert (Hs : y + a - s = y * n / (n + a)) by (field_simplify_eq; lra).
  lra.
Qed.

Lemma shares_half_NO (pool : YesNo) (a : R) (outcome : string) :
  0 < orElse (YES pool) 0 -> 0 < orElse (NO pool) 0 -> 0 < a ->
  outcome <> "YES"%string ->
  calculateCpmmShares pool (1 / 2) a outcome =
  orElse (NO pool) 0 + a
  - orElse (YES pool) 0 * orElse (NO pool) 0 / (orElse (YES pool) 0 + a).
Proof.
  intros Hy Hn Ha Ho.
  assert (Hp : 0 < 1 / 2 < 1) by lra.
  pose proof (remaining_NO pool (1 / 2) Hy Hn Hp a outcome Ha Ho) as Hr.
  pose proof (invariant_NO_Rpower pool (1 / 2) a outcome Hy Hn Hp Ha Ho) as Hi.
  set (y := orElse (YES pool) 0) in *. set (n := orElse (NO pool) 0) in *.
  set (s := calculateCpmmShares pool (1 / 2) a outcome) in *.
  replace (1 - 1 / 2) with (1 / 2) in Hi by lra.
  rewrite !Rpower_mult_distr in Hi by lra.
  apply Rpower_half_injective in Hi;
    [|apply Rmult_lt_0_compat; lra|apply Rmult_lt_0_compat; lra].
  assert (Hs : n + a - s = y * n / (y + a)) by (field_simplify_eq; lra).
  lra.
Qed.

(** With [p = 0.5] the lower search bound for the shares that an amount
    buys does not exceed that amount. *)
Lemma lowerBound_sound_half (pool : YesNo) (a : R) (outcome : string) :
  0 < orElse (YES pool) 0 -> 0 < orElse (NO pool) 0 -> 0 < a ->
  lowerBound pool (calculateCpmmShares pool (1 / 2) a outcome) outcome <= a.
Proof.
  intros Hy Hn Ha. unfold lowerBound, poolProb.
  replace (0 <? orElse (YES pool) 0 + orElse (NO pool) 0) with true
    by (symmetry; apply Rltb_true; lra).
  destruct (outcome =? "YES")%string eqn:Eo.
  - apply String.eqb_eq in Eo. subst outcome.
    rewrite shares_half_YES by assumption.
    set (y := orElse (YES pool) 0) in *. set (n := orElse (NO pool) 0) in *.
    apply Rmult_le_reg_r with ((n + a) * (y + n));
      [apply Rmult_lt_0_compat; lra|].
    replace ((y + a - y * n / (n + a)) * (n / (y + n)) * ((n + a) * (y + n)))
      with (((y + a) * (n + a) - y * n) * n) by (field; lra).
    nra.
  - apply String.eqb_neq in Eo.
    rewrite shares_half_NO by assumption.
    set (y := orElse (YES pool) 0) in *. set (n := orElse (NO pool) 0) in *.
    apply Rmult_le_reg_r with ((y + a) * (y + n));
      [apply Rmult_lt_0_compat; lra|].
    replace ((n + a - y * n / (y + a)) * (1 - n / (y + n)) * ((y + a) * (y + n)))
      with (((n + a) * (y + a) - y * n) * y) by (field; lra).
    nra.
Qed.

(** On [{YES: 1, NO: 3}] with [p = 0.5], the cost of [6.4] NO shares: the
    first midpoint [4] buys exactly [6.4] shares. *)
Lemma cost_of_NO_on_pool13 :
  calculateAmountToBuyShares pool13 (1 / 2) (32 / 5) "NO" = 4.
Proof.
  assert (Hy : 0 < orElse (YES pool13) 0)
    by (unfold pool13; cbn [YES]; rewrite orElse_zero; lra).
  assert (Hn : 0 < orElse (NO pool13) 0)
    by (unfold pool13; cbn [NO]; rewrite orElse_zero; lra).
  assert (Hlb : lowerBound pool13 (32 / 5) "NO" = 8 / 5).
  { unfold lowerBound, poolProb. simpl String.eqb. cbv iota zeta.
    unfold pool13. cbn [YES NO]. rewrite !orElse_zero.
    replace (0 <? 1 + 3) with true by (symmetry; apply Rltb_true; lra).
    lra. }
  unfold calculateAmountToBuyShares.
  replace (32 / 5 <=? 0) with false by (symmetry; apply Rleb_false; lra).
  cbv zeta. rewrite Hlb.
  rewrite bisect_accept; [lra|].
  replace ((8 / 5 + 32 / 5) / 2) with 4 by lra.
  rewrite (shares_half_NO pool13 4 "NO") by (assumption || lra || discriminate).
  unfold pool13; cbn [YES NO]. rewrite !orElse_zero.
  replace (3 + 4 - 1 * 3 / (1 + 4) - 32 / 5) with 0 by field.
  rewrite Rabs_R0. lra.
Qed.

(** On that pool the cost of [6.4] YES shares is at least [4.8]. *)
Lemma cost_of_YES_on_pool13 :
  24 / 5 <= calculateAmountToBuyShares pool13 (1 / 2) (32 / 5) "YES".
Proof.
  assert (Hlb : lowerBound pool13 (32 / 5) "YES" = 24 / 5).
  { unfold lowerBound, poolProb. simpl String.eqb. cbv iota zeta.
    unfold pool13. cbn [YES NO]. rewrite !orElse_zero.
    replace (0 <? 1 + 3) with true by (symmetry; apply Rltb_true; lra).
    lra. }
  rewrite <- Hlb. apply amount_in_search_interval; [lra|]. rewrite Hlb. lra.
Qed.

Lemma calculateSaleValue_spec_witness :
  calculateSaleValue (32 / 5) "YES" pool13 (1 / 2) "cpmm-1" = 12 / 5
  /\ Rmax 0 (32 / 5 - calculateAmountToBuyShares pool13 (1 / 2) (32 / 5) "YES")
     < 12 / 5.
Proof.
  assert (Hp : 0 < 1 / 2 < 1) by lra.
  assert (Hs : 0 <= 32 / 5) by lra.
  assert (Hy : 0 < orElse (YES pool13) 0)
    by (unfold pool13; cbn [YES]; rewrite orElse_zero; lra).
  assert (Hn : 0 < orElse (NO pool13) 0)
    by (unfold pool13; cbn [NO]; rewrite orElse_zero; lra).
  destruct (calculateSaleValue_spec (32 / 5) "YES" pool13 (1 / 2) "cpmm-1"
              Hp Hs) as [H _].
  destruct (H (or_introl eq_refl) Hy Hn) as [Hyes _].
  split.
  - rewrite (Hyes eq_refl), cost_of_NO_on_pool13.
    unfold Rmax. destruct (Rle_dec 0 (32 / 5 - 4)); lra.
  - pose proof cost_of_YES_on_pool13 as Hc.
    unfold Rmax. destruct (Rle_dec _ _); lra.
Defined.

Lemma shares_half_difference (pool : YesNo) (outcome : string) (u v : R) :
  0 < orElse (YES pool) 0 -> 0 < orElse (NO pool) 0 -> 0 < u -> 0 < v ->
  let ratio := if (outcome =? "YES")%string
               then orElse (YES pool) 0 / orElse (NO pool) 0
               else orElse (NO pool) 0 / orElse (YES pool) 0 in
  Rabs (calculateCpmmShares pool (1 / 2) u outcome
        - calculateCpmmShares pool (1 / 2) v outcome)
  <= (1 + ratio) * Rabs (u - v).
Proof.
  intros Hy Hn Hu Hv. cbv zeta.
  set (y := orElse (YES pool) 0) in *. set (n := orElse (NO pool) 0) in *.
  assert (Hgen : forall c d : R, 0 < c -> 0 < d ->
            Rabs ((d + u - c * d / (c + u)) - (d + v - c * d / (c + v)))
            <= (1 + d / c) * Rabs (u - v)).
  { intros c d Hc Hd.
    replace ((d + u - c * d / (c + u)) - (d + v - c * d / (c + v)))
      with ((1 + c * d / ((c + u) * (c + v))) * (u - v)) by (field; lra).
    rewrite Rabs_mult.
    apply Rmult_le_compat_r; [apply Rabs_pos|].
    assert (Hq : 0 <= c * d / ((c + u) * (c + v)) <= d / c).
    { split.
      - apply Rmult_le_pos; [nra|]. left. apply Rinv_0_lt_compat. nra.
      - apply Rmult_le_reg_r with (c * ((c + u) * (c + v)));
          [apply Rmult_lt_0_compat; nra|].
        replace (c * d / ((c + u) * (c + v)) * (c * ((c + u) * (c + v))))
          with (c * d * c) by (field; nra).
        replace (d / c * (c * ((c + u) * (c + v))))
          with (d * ((c + u) * (c + v))) by (field; lra).
        assert (H1 : c * c <= (c + u) * (c + v)) by nra.
        replace (c * d * c) with (d * (c * c)) by ring.
        apply Rmult_le_compat_l; lra. }
    rewrite Rabs_right by lra. lra. }
  destruct (outcome =? "YES")%string eqn:Eo.
  - apply String.eqb_eq in Eo. subst outcome.
    rewrite !shares_half_YES by assumption. fold y n.
    replace (y * n) with (n * y) by lra. apply Hgen; assumption.
  - apply String.eqb_neq in Eo.
    rewrite !(shares_half_NO pool _ outcome) by assumption. fold y n.
    apply Hgen; assumption.
Qed.

(** X4.  With the weight [p = 0.5] and positive reserves, asking for the
    shares that an amount [a > 0] buys brackets [a]: the lower search
    bound is at most [a] and [a] is at most the shares.  The amount
    returned buys the shares to within [1e-4], or it is within the final
    interval width of [a] and then buys the shares to within that width
    times one plus the ratio of the bought reserve to the other. *)
Theorem cost_inverts_shares_at_half
    (pool : YesNo) (a : R) (outcome : string) :
  0 < orElse (YES pool) 0 -> 0 < orElse (NO pool) 0 -> 0 < a ->
  let shares := calculateCpmmShares pool (1 / 2) a outcome in
  let cost := calculateAmountToBuyShares pool (1 / 2) shares outcome in
  let back := calculateCpmmShares pool (1 / 2) cost outcome in
  let width := (shares - lowerBound pool shares outcome) / 2 ^ 50 in
  let ratio := if (outcome =? "YES")%string
               then orElse (YES pool) 0 / orElse (NO pool) 0
               else orElse (NO pool) 0 / orElse (YES pool) 0 in
  lowerBound pool shares outcome <= a <= shares
  /\ (Rabs (back - shares) < 1 / 10000
      \/ (Rabs (cost - a) <= width
          /\ Rabs (back - shares) <= (1 + ratio) * width)).
Proof.
  intros Hy Hn Ha. cbv zeta.
  assert (Hp : 0 < 1 / 2 < 1) by lra.
  set (shares := calculateCpmmShares pool (1 / 2) a outcome).
  assert (Has : a < shares)
    by (apply (shares_exceed_bet pool (1 / 2) a outcome);
        assumption).
  assert (Hs : 0 < shares) by lra.
  pose proof (lowerBound_sound_half pool a outcome Hy Hn Ha) as Hlb.
  fold shares in Hlb.
  pose proof (lowerBound_positive pool shares outcome Hy Hn Hs) as Hlp.
  split; [lra|].
  assert (Hb : Rabs (calculateCpmmShares pool (1 / 2)
                       (calculateAmountToBuyShares pool (1 / 2) shares outcome)
                       outcome - shares) < 1 / 10000
               \/ Rabs (calculateAmountToBuyShares pool (1 / 2) shares outcome - a)
                  <= (shares - lowerBound pool shares outcome) / 2 ^ 50).
  { unfold calculateAmountToBuyShares.
    replace (shares <=? 0) with false by (symmetry; apply Rleb_false; lra).
    cbv zeta.
    apply (bisect_bracket (fun mid => calculateCpmmShares pool (1 / 2) mid outcome)
                          shares a 49).
    - intros u v Hu Huv Hv. apply shares_increasing; try assumption. lra.
    - lra.
    - reflexivity. }
  destruct Hb as [Hb|Hb]; [now left|]. right. split; [exact Hb|].
  set (cost := calculateAmountToBuyShares pool (1 / 2) shares outcome) in *.
  assert (Hc : 0 < cost).
  { pose proof (amount_in_search_interval pool (1 / 2) shares outcome Hs) as H.
    fold cost in H. lra. }
  pose proof (shares_half_difference pool outcome cost a Hy Hn Hc Ha) as Hd.
  cbv zeta in Hd. fold shares in Hd.
  eapply Rle_trans; [exact Hd|].
  apply Rmult_le_compat_l; [|exact Hb].
  destruct (outcome =? "YES")%string;
    assert (0 < orElse (YES pool) 0 / orElse (NO pool) 0)
      by (apply Rdiv_lt_0_compat; lra);
    assert (0 < orElse (NO pool) 0 / orElse (YES pool) 0)
      by (apply Rdiv_lt_0_compat; lra); lra.
Qed.

Lemma cost_inverts_shares_at_half_witness :
  lowerBound pool5050 (calculateCpmmShares pool5050 (1 / 2) 1 "YES") "YES"
  <= 1 <= calculateCpmmShares pool5050 (1 / 2) 1 "YES".
Proof.
  assert (Hy : 0 < orElse (YES pool5050) 0)
    by (unfold pool5050; cbn [YES]; rewrite orElse_zero; lra).
  assert (Hn : 0 < orElse (NO pool5050) 0)
    by (unfold pool5050; cbn [NO]; rewrite orElse_zero; lra).
  assert (Ha : 0 < 1) by lra.
  destruct (cost_inverts_shares_at_half pool5050 1 "YES" Hy Hn Ha) as [H _].
  exact H.
Defined.

(** ** The liquidation value on a usable pool *)

Lemma bisect_below_max (received : R -> R) (shares : R) (i : nat) :
  forall lo hi m, lo < hi -> bisect received shares (S i) lo hi m < hi.
Proof.
  induction i as [|i IH]; intros lo hi m Hlt.
  - cbn [bisect]. cbv zeta.
    destruct (Rabs _ <? _); [lra|]. destruct (received _ <? shares); lra.
  - change (bisect received shares (S (S i)) lo hi m) with
      (let mid := (lo + hi) / 2 in
       if Rabs (received mid - shares) <? 1 / 10000 then mid
       else if received mid <? shares
            then bisect received shares (S i) mid hi mid
            else bisect received shares (S i) lo mid mid).
    cbv zeta. destruct (Rabs _ <? _); [lra|].
    destruct (received _ <? shares).
    + apply IH. lra.
    + assert (H : bisect received shares (S i) lo ((lo + hi) / 2) ((lo + hi) / 2)
                  < (lo + hi) / 2) by (apply IH; lra).
      lra.
Qed.

(** The probability the code assigns to the held side of a pool. *)
Lemma lowerBound_opposite (pool : YesNo) (shares : R) (outcome : string) :
  shares - lowerBound pool shares (opposite outcome)
  = shares * (if (outcome =? "YES")%string then poolProb pool
              else 1 - poolProb pool).
Proof.
  unfold lowerBound, opposite.
  destruct (outcome =? "YES")%string; simpl String.eqb; cbv iota; lra.
Qed.

Lemma amount_below_shares (pool : YesNo) (p shares : R) (outcome : string) :
  0 < orElse (YES pool) 0 -> 0 < orElse (NO pool) 0 -> 0 < shares ->
  calculateAmountToBuyShares pool p shares outcome < shares.
Proof.
  intros Hy Hn Hs.
  pose proof (lowerBound_positive pool shares outcome Hy Hn Hs) as Hlb.
  unfold calculateAmountToBuyShares.
  replace (shares <=? 0) with false by (symmetry; apply Rleb_false; lra).
  cbv zeta. apply bisect_below_max. lra.
Qed.

Lemma sale_value_unfolded (shares : R) (outcome : string) (pool : YesNo)
    (p : R) (mechanism : string) :
  supported mechanism = true ->
  0 < orElse (YES pool) 0 -> 0 < orElse (NO pool) 0 ->
  calculateSaleValue shares outcome pool p mechanism =
  Rmax 0 (shares - calculateAmountToBuyShares pool p shares (opposite outcome)).
Proof.
  intros Hm Hy Hn. unfold calculateSaleValue. rewrite Hm. cbn [negb].
  cbv zeta.
  replace (orElse (YES pool) 0 <=? 0) with false
    by (symmetry; apply Rleb_false; lra).
  replace (orElse (NO pool) 0 <=? 0) with false
    by (symmetry; apply Rleb_false; lra).
  reflexivity.
Qed.

(** X5.  With a supported mechanism, positive reserves and [shares > 0],
    the liquidation value is strictly positive and at most [shares] times
    the pool-ratio probability of the held side ([no / (yes + no)] for
    YES, [yes / (yes + no)] otherwise), whatever the weight [p]. *)
Theorem sale_value_positive_below_pool_value
    (shares : R) (outcome : string) (pool : YesNo) (p : R)
    (mechanism : string) :
  supported mechanism = true ->
  0 < orElse (YES pool) 0 -> 0 < orElse (NO pool) 0 -> 0 < shares ->
  0 < calculateSaleValue shares outcome pool p mechanism
  <= shares * (if (outcome =? "YES")%string then poolProb pool
               else 1 - poolProb pool).
Proof.
  intros Hm Hy Hn Hs. rewrite sale_value_unfolded by assumption.
  rewrite <- lowerBound_opposite.
  pose proof (amount_in_search_interval pool p shares (opposite outcome) Hs) as Hi.
  pose proof (lowerBound_positive pool shares (opposite outcome) Hy Hn Hs) as Hlb.
  pose proof (amount_below_shares pool p shares (opposite outcome) Hy Hn Hs)
    as Hlt.
  unfold Rmax. destruct (Rle_dec _ _); lra.
Qed.

Lemma sale_value_positive_below_pool_value_witness :
  0 < calculateSaleValue 10 "YES" pool5050 (1 / 2) "cpmm-1"
  <= 10 * poolProb pool5050.
Proof.
  apply (sale_value_positive_below_pool_value 10 "YES" pool5050 (1 / 2) "cpmm-1").
  - reflexivity.
  - unfold pool5050; cbn [YES]; rewrite orElse_zero; lra.
  - unfold pool5050; cbn [NO]; rewrite orElse_zero; lra.
  - lra.
Defined.

(** * Further properties of the pipeline *)

Lemma find_over_app {A : Type} (f : A -> bool) (l1 l2 : list A) :
  find f (l1 ++ l2) =
  match find f l1 with
  | Some x => Some x
  | None => find f l2
  end.
Proof.
  induction l1 as [|x l1 IH]; [reflexivity|].
  cbn [app find]. now destruct (f x).
Qed.

(** [contractsLookup[k]] after the [forEach]: the last fetched contract
    with that id. *)
Lemma buildLookup_last (contracts : list Contract.t) (k : string) :
  buildLookup contracts k =
  find (fun c => (k =? Contract.id c)%string) (rev contracts).
Proof.
  unfold buildLookup.
  assert (H : forall l m,
             fold_left assign l m k =
             match find (fun c => (k =? Contract.id c)%string) (rev l) with
             | Some c => Some c
             | None => m k
             end).
  { induction l as [|x l IH]; intros m; [reflexivity|].
    cbn [fold_left rev]. rewrite IH, find_over_app.
    destruct (find _ (rev l)); [reflexivity|].
    cbn [find]. unfold assign. now destruct (k =? Contract.id x)%string. }
  rewrite H. now destruct (find _ _).
Qed.

(** X6.  [contractsLookup] holds, for each id, the last fetched contract
    with that id: a lookup finds a contract exactly when some fetched
    contract has the id, and a contract appended to the fetched list
    replaces every earlier contract with its id. *)
Theorem lookup_last_wins (contracts : list Contract.t) (c : Contract.t)
    (k : string) :
  (buildLookup contracts k = None <->
   forall c', In c' contracts -> Contract.id c' <> k)
  /\ buildLookup (contracts ++ [c]) (Contract.id c) = Some c
  /\ (k <> Contract.id c ->
      buildLookup (contracts ++ [c]) k = buildLookup contracts k).
Proof.
  split; [|split].
  - rewrite buildLookup_last. split.
    + intros H c' Hin Hid.
      assert (Hf : (k =? Contract.id c')%string = false).
      { apply (find_none _ _ H c'). now apply in_rev in Hin. }
      apply String.eqb_neq in Hf. congruence.
    + intros H. destruct (find _ _) as [c'|] eqn:E; [|reflexivity].
      apply find_some in E. destruct E as [Hin Hid].
      apply in_rev in Hin. apply String.eqb_eq in Hid.
      exfalso. now apply (H c' Hin).
  - rewrite buildLookup_last, rev_app_distr. cbn [rev app find].
    now rewrite String.eqb_refl.
  - intros Hk. rewrite !buildLookup_last, rev_app_distr. cbn [rev app find].
    apply String.eqb_neq in Hk. now rewrite Hk.
Qed.

Lemma lookup_last_wins_witness :
  buildLookup ([contractPlain] ++ [contractNoProb]) "other"
  = buildLookup [contractPlain] "other".
Proof.
  destruct (lookup_last_wins [contractPlain] contractNoProb "other")
    as (_ & _ & H).
  apply H. discriminate.
Defined.

(** What the loop body fixes in the record it pushes. *)
Lemma processMetrics_record (currentTime : R) (contractId : string)
    (contract : Contract.t) (mechanism : string) (metrics : Metrics.t)
    (pos : Position.t) :
  processMetrics currentTime contractId contract mechanism metrics = Some pos ->
  let totalShares := objOr (Metrics.totalShares metrics) in
  let yesShares := orElse (YES totalShares) 0 in
  let noShares := orElse (NO totalShares) 0 in
  Position.contractId pos = contractId
  /\ Position.shares pos = Rmax yesShares noShares
  /\ 1 / 100 <= Position.shares pos
  /\ Position.outcome pos =
     (if noShares <? yesShares then "YES"%string else "NO"%string)
  /\ fallbackProbability
       (r_probability (resolve contract mechanism (Metrics.answerId metrics)))
       (r_pool (resolve contract mechanism (Metrics.answerId metrics)))
     = Some (Position.probability pos)
  /\ Position.daysUntilClose pos =
     match Contract.closeTime contract with
     | number c =>
         if Reqb c 0 then None
         else Some ((c - currentTime) / (1000 * 60 * 60 * 24))
     | _ => None
     end
  /\ Position.returnIfCorrect pos =
     calculateReturnIfCorrect (Position.saleValue pos) (Position.shares pos)
                              (Contract.closeTime contract) currentTime.
Proof.
  unfold processMetrics. cbv zeta.
  set (yesShares := orElse (YES (objOr (Metrics.totalShares metrics))) 0).
  set (noShares := orElse (NO (objOr (Metrics.totalShares metrics))) 0).
  assert (Hmax : (if noShares <? yesShares then yesShares else noShares)
                 = Rmax yesShares noShares).
  { unfold Rmax. destruct (noShares <? yesShares) eqn:E;
      destruct (Rle_dec yesShares noShares); reflect_cmp; lra. }
  rewrite Hmax.
  destruct (_ && _); [discriminate|].
  destruct (Rmax yesShares noShares <? 1 / 100) eqn:Ed; [discriminate|].
  destruct (fallbackProbability _ _) as [probability|]; [|discriminate].
  intros H. injection H as <-.
  cbn [Position.contractId Position.shares Position.outcome
       Position.probability Position.daysUntilClose Position.returnIfCorrect
       Position.saleValue].
  reflect_cmp. repeat split; auto.
Qed.

Lemma sale_value_range (shares : R) (outcome : string) (pool : YesNo)
    (p : R) (mechanism : string) :
  0 <= shares ->
  0 <= calculateSaleValue shares outcome pool p mechanism <= shares.
Proof.
  intros Hs. unfold calculateSaleValue.
  destruct (negb _); [lra|]. cbv zeta.
  destruct (orElse (YES pool) 0 <=? 0) eqn:Ey; [cbn [orb]; lra|].
  destruct (orElse (NO pool) 0 <=? 0) eqn:En; [cbn [orb]; lra|].
  cbn [orb]. reflect_cmp.
  assert (Ha : 0 <= calculateAmountToBuyShares pool p shares (opposite outcome)
               <= shares) by (apply amount_range; lra).
  unfold Rmax. destruct (Rle_dec _ _); lra.
Qed.

(** X7.  Every record comes from a holding listed under its contract id,
    and the contract found under that id is unresolved with a supported
    mechanism; its [shares] is the larger of the two share counts of the
    holding and at least [0.01], and its [outcome] is that side.  So an id
    whose contract is missing, resolved or unsupported appears in no
    record. *)
Theorem only_open_supported_markets_valued
    (currentTime : R) (rawData : RawData.t) :
  let lookup := buildLookup (listOr (RawData.contracts rawData)) in
  (forall pos, In pos (processPositions currentTime rawData) ->
     exists contract metricsList metrics,
       lookup (Position.contractId pos) = Some contract
       /\ Contract.isResolved contract = false
       /\ supported (strOr (Contract.mechanism contract) "") = true
       /\ In (Position.contractId pos, metricsList)
             (listOr (RawData.metricsByContract rawData))
       /\ In metrics metricsList
       /\
       let yesShares := orElse (YES (objOr (Metrics.totalShares metrics))) 0 in
       let noShares := orElse (NO (objOr (Metrics.totalShares metrics))) 0 in
       Position.shares pos = Rmax yesShares noShares
       /\ 1 / 100 <= Position.shares pos
       /\ Position.outcome pos =
          (if noShares <? yesShares then "YES"%string else "NO"%string))
  /\
  (forall contractId,
     (forall contract, lookup contractId = Some contract ->
        Contract.isResolved contract = true
        \/ supported (strOr (Contract.mechanism contract) "") = false) ->
     forall pos, In pos (processPositions currentTime rawData) ->
       Position.contractId pos <> contractId).
Proof.
  cbv zeta.
  assert (Hmain : forall pos, In pos (processPositions currentTime rawData) ->
     exists contract metricsList metrics,
       buildLookup (listOr (RawData.contracts rawData)) (Position.contractId pos)
       = Some contract
       /\ Contract.isResolved contract = false
       /\ supported (strOr (Contract.mechanism contract) "") = true
       /\ In (Position.contractId pos, metricsList)
             (listOr (RawData.metricsByContract rawData))
       /\ In metrics metricsList
       /\ Position.shares pos =
          Rmax (orElse (YES (objOr (Metrics.totalShares metrics))) 0)
               (orElse (NO (objOr (Metrics.totalShares metrics))) 0)
       /\ 1 / 100 <= Position.shares pos
       /\ Position.outcome pos =
          (if orElse (NO (objOr (Metrics.totalShares metrics))) 0
              <? orElse (YES (objOr (Metrics.totalShares metrics))) 0
           then "YES"%string else "NO"%string)).
  { intros pos Hin. apply In_processPositions in Hin.
    destruct Hin as (contractId & metricsList & contract & metrics
                     & He & Hl & Hres & Hsup & Hm & Hp).
    apply processMetrics_record in Hp. cbv zeta in Hp.
    destruct Hp as (Hid & Hsh & Hmin & Hout & _).
    exists contract, metricsList, metrics. rewrite Hid. repeat split; auto. }
  split; [exact Hmain|].
  intros contractId Hbad pos Hin Hid.
  destruct (Hmain pos Hin) as (contract & _ & _ & Hl & Hres & Hsup & _).
  rewrite Hid in Hl. destruct (Hbad contract Hl); congruence.
Qed.

(** X8.  The output is built entry by entry: with no contracts or no
    holdings it is empty, and for holdings listed in two parts it is the
    output for the first part followed by the output for the second. *)
Theorem output_by_entries (currentTime : R)
    (contracts : option (list Contract.t))
    (entries1 entries2 : list (string * list Metrics.t)) :
  processPositions currentTime (RawData.mk contracts None) = []
  /\ processPositions currentTime (RawData.mk None (Some entries1)) = []
  /\ processPositions currentTime
       (RawData.mk contracts (Some (entries1 ++ entries2)%list))
     = (processPositions currentTime (RawData.mk contracts (Some entries1))
        ++ processPositions currentTime (RawData.mk contracts (Some entries2)))%list.
Proof.
  split; [reflexivity|]. split.
  - rewrite processPositions_flat_map.
    cbn [RawData.contracts RawData.metricsByContract listOr].
    induction entries1 as [|[k ml] es IH]; [reflexivity|].
    cbn [flat_map]. rewrite IH. reflexivity.
  - rewrite !processPositions_flat_map.
    cbn [RawData.contracts RawData.metricsByContract listOr].
    apply flat_map_app.
Qed.

(** X9.  In every record the two time fields agree with the other
    fields: without [daysUntilClose] there is no [returnIfCorrect]; with
    [daysUntilClose <= 0] or a [saleValue <= 0] there is none either; and
    with [daysUntilClose > 0] and [saleValue > 0] it is
    [(shares - saleValue) / saleValue * (365 / max(daysUntilClose, 1))]
    computed from the record's own [shares], [saleValue] and
    [daysUntilClose]. *)
Theorem time_fields_consistent (currentTime : R) (rawData : RawData.t)
    (pos : Position.t) :
  In pos (processPositions currentTime rawData) ->
  (Position.daysUntilClose pos = None -> Position.returnIfCorrect pos = None)
  /\
  (forall days, Position.daysUntilClose pos = Some days ->
     (days <= 0 -> Position.returnIfCorrect pos = None)
     /\
     (forall saleValue, Position.saleValue pos = Fin saleValue ->
        (saleValue <= 0 -> Position.returnIfCorrect pos = None)
        /\
        (0 < days -> 0 < saleValue ->
         Position.returnIfCorrect pos =
         Some (Fin ((Position.shares pos - saleValue) / saleValue
                    * (365 / Rmax days 1)))))).
Proof.
  intros Hin. apply In_processPositions in Hin.
  destruct Hin as (contractId & metricsList & contract & metrics
                   & _ & _ & _ & _ & _ & Hp).
  apply processMetrics_record in Hp. cbv zeta in Hp.
  destruct Hp as (_ & _ & _ & _ & _ & Hdays & Hret).
  rewrite Hdays, Hret. unfold calculateReturnIfCorrect.
  destruct (Contract.closeTime contract) as [| |c].
  - split; [reflexivity|]. intros days H. discriminate.
  - split; [reflexivity|]. intros days H. discriminate.
  - destruct (Reqb c 0); [split; [reflexivity|]; intros days H; discriminate|].
    split; [discriminate|].
    intros days H. injection H as <-.
    set (days := (c - currentTime) / (1000 * 60 * 60 * 24)).
    split.
    + intros Hd. apply Rleb_true in Hd. now rewrite Hd.
    + intros saleValue Hs. rewrite Hs. cbn [nleb nsub ndiv nmul nlift2]. split.
      * intros Hsv. apply Rleb_true in Hsv. rewrite Hsv.
        now rewrite orb_true_r.
      * intros Hd Hsv. apply Rleb_false in Hd, Hsv. now rewrite Hd, Hsv.
Qed.

Lemma time_fields_consistent_witness :
  Position.returnIfCorrect (posPlainAt 0) =
  Some (Fin ((Position.shares (posPlainAt 0) - 5) / 5
             * (365 / Rmax ((twoDays - 0) / oneDay) 1))).
Proof.
  assert (Hin : In (posPlainAt 0) (processPositions 0 rawPlain)).
  { rewrite processPositions_rawPlain by (unfold twoDays; lra).
    left; reflexivity. }
  destruct (time_fields_consistent 0 rawPlain (posPlainAt 0) Hin) as [_ H].
  destruct (H ((twoDays - 0) / oneDay) eq_refl) as [_ H1].
  destruct (H1 5 eq_refl) as [_ H2].
  apply H2; [|lra]. unfold twoDays, oneDay. lra.
Defined.

Lemma fair_value_range (shares q : R) (outcome : string) :
  0 <= shares -> 0 <= q <= 1 ->
  outcome = "YES"%string \/ outcome = "NO"%string ->
  exists fairValue,
    calculateSimpleSaleValue shares (number q) outcome = Fin fairValue
    /\ 0 <= fairValue <= shares.
Proof.
  intros Hs Hq [-> | ->]; unfold calculateSimpleSaleValue;
    cbn [String.eqb Ascii.eqb Bool.eqb toNumber nmul nsub nlift2];
    eexists; (split; [reflexivity|nra]).
Qed.

Lemma return_nonnegative (saleValue shares : R) (closeTime : value)
    (currentTime : R) (r : num) :
  saleValue <= shares ->
  calculateReturnIfCorrect (Fin saleValue) shares closeTime currentTime
  = Some r ->
  exists x, r = Fin x /\ 0 <= x.
Proof.
  intros Hle. unfold calculateReturnIfCorrect.
  destruct closeTime as [| |c]; try discriminate.
  destruct (Reqb c 0); [discriminate|]. cbn [nleb].
  set (days := (c - currentTime) / (1000 * 60 * 60 * 24)).
  destruct (days <=? 0) eqn:Ed; [discriminate|].
  destruct (saleValue <=? 0) eqn:Es; [discriminate|].
  cbn [orb nsub ndiv nmul nlift2]. intros H. injection H as <-.
  reflect_cmp. eexists. split; [reflexivity|].
  assert (0 < Rmax days 1) by (unfold Rmax; destruct (Rle_dec days 1); lra).
  apply Rmult_le_pos.
  - apply Rmult_le_pos; [lra|]. left. now apply Rinv_0_lt_compat.
  - apply Rmult_le_pos; [lra|]. left. now apply Rinv_0_lt_compat.
Qed.

(** X10.  A record whose probability is a number between [0] and [1] has
    numeric values within bounds: [fairValue] and [saleValue] lie between
    [0] and [shares], [slippage] is a number below [1], and a present
    [returnIfCorrect] is a number that is not negative. *)
Theorem values_within_bounds (currentTime : R) (rawData : RawData.t)
    (pos : Position.t) (q : R) :
  In pos (processPositions currentTime rawData) ->
  Position.probability pos = number q -> 0 <= q <= 1 ->
  exists fairValue saleValue slippage,
    Position.fairValue pos = Fin fairValue
    /\ 0 <= fairValue <= Position.shares pos
    /\ Position.saleValue pos = Fin saleValue
    /\ 0 <= saleValue <= Position.shares pos
    /\ Position.slippage pos = Fin slippage
    /\ slippage < 1
    /\ (forall r, Position.returnIfCorrect pos = Some r ->
          exists x, r = Fin x /\ 0 <= x).
Proof.
  intros Hin Hq Hrange. apply In_processPositions in Hin.
  destruct Hin as (contractId & metricsList & contract & metrics
                   & _ & _ & _ & _ & _ & Hp).
  pose proof (processMetrics_record _ _ _ _ _ _ Hp) as Hr.
  cbv zeta in Hr. destruct Hr as (_ & _ & Hmin & _ & _ & _ & Hret).
  apply processMetrics_fields in Hp. cbv zeta in Hp.
  destruct Hp as (Hout & Hfair & Hsale & Hslip).
  set (amm := calculateSaleValue _ _ _ _ _) in *.
  assert (Hs : 0 <= Position.shares pos) by lra.
  assert (Hamm : 0 <= amm <= Position.shares pos)
    by (apply sale_value_range; exact Hs).
  rewrite Hq in Hfair.
  destruct (fair_value_range (Position.shares pos) q (Position.outcome pos)
              Hs Hrange Hout) as (fv & Hfv & Hfvr).
  rewrite Hfv in Hfair. rewrite Hfair in Hsale, Hslip. cbn [nltb] in Hslip.
  assert (Hsv : exists sv, Position.saleValue pos = Fin sv
                           /\ 0 <= sv <= Position.shares pos).
  { revert Hsale. destruct (0 <? amm); intros Hsale; eexists;
      (split; [exact Hsale|lra]). }
  destruct Hsv as (sv & Hsv & Hsvr).
  assert (Hsl : exists sl, Position.slippage pos = Fin sl /\ sl < 1).
  { revert Hslip. destruct (0 <? fv) eqn:E1; destruct (0 <? amm) eqn:E2;
      cbn [andb nsub ndiv nlift2]; intros Hslip;
      eexists; (split; [exact Hslip|]); try lra.
    reflect_cmp.
    apply Rmult_lt_reg_r with fv; [exact E1|].
    unfold Rdiv. rewrite Rmult_assoc, Rinv_l by lra. lra. }
  destruct Hsl as (sl & Hsl & Hslr).
  exists fv, sv, sl. repeat split; try assumption; try lra.
  intros r Hr. rewrite Hret, Hsv in Hr.
  eapply return_nonnegative; [|exact Hr]. lra.
Qed.

Lemma values_within_bounds_witness :
  exists fairValue saleValue slippage,
    Position.fairValue (posPlainAt 0) = Fin fairValue
    /\ 0 <= fairValue <= Position.shares (posPlainAt 0)
    /\ Position.saleValue (posPlainAt 0) = Fin saleValue
    /\ 0 <= saleValue <= Position.shares (posPlainAt 0)
    /\ Position.slippage (posPlainAt 0) = Fin slippage
    /\ slippage < 1
    /\ (forall r, Position.returnIfCorrect (posPlainAt 0) = Some r ->
          exists x, r = Fin x /\ 0 <= x).
Proof.
  assert (Hin : In (posPlainAt 0) (processPositions 0 rawPlain)).
  { rewrite processPositions_rawPlain by (unfold twoDays; lra).
    left; reflexivity. }
  apply (values_within_bounds 0 rawPlain (posPlainAt 0) (1 / 2) Hin).
  - reflexivity.
  - lra.
Defined.

(** X11.  When the probability read for a holding is [null], the record
    that this holding produces is valued from the pool alone: both
    reserves are positive, the probability is [no / (yes + no)], the
    [saleValue] is the positive AMM value and does not exceed the
    [fairValue], and the [slippage] lies in [[0, 1)]. *)
Theorem fallback_valuation (currentTime : R) (rawData : RawData.t)
    (contractId : string) (metricsList : list Metrics.t)
    (contract : Contract.t) (metrics : Metrics.t) (pos : Position.t) :
  let mechanism := strOr (Contract.mechanism contract) "" in
  let st := resolve contract mechanism (Metrics.answerId metrics) in
  let yesPool := orElse (YES (r_pool st)) 0 in
  let noPool := orElse (NO (r_pool st)) 0 in
  In (contractId, metricsList) (listOr (RawData.metricsByContract rawData)) ->
  buildLookup (listOr (RawData.contracts rawData)) contractId = Some contract ->
  Contract.isResolved contract = false ->
  supported mechanism = true ->
  In metrics metricsList ->
  processMetrics currentTime contractId contract mechanism metrics = Some pos ->
  r_probability st = null ->
  In pos (processPositions currentTime rawData)
  /\ 0 < yesPool /\ 0 < noPool
  /\ Position.probability pos = number (noPool / (yesPool + noPool))
  /\ exists saleValue fairValue slippage,
       Position.saleValue pos = Fin saleValue
       /\ Position.fairValue pos = Fin fairValue
       /\ saleValue =
          calculateSaleValue (Position.shares pos) (Position.outcome pos)
                             (r_pool st) (orElse (Contract.p contract) (1 / 2))
                             mechanism
       /\ 0 < saleValue <= fairValue
       /\ Position.slippage pos = Fin slippage
       /\ slippage = (fairValue - saleValue) / fairValue
       /\ 0 <= slippage < 1.
Proof.
  cbv zeta. intros He Hl Hres Hsup Hm Hp Hnull.
  split.
  { apply In_processPositions.
    exists contractId, metricsList, contract, metrics. repeat split; assumption. }
  pose proof (processMetrics_record _ _ _ _ _ _ Hp) as Hr.
  cbv zeta in Hr. destruct Hr as (_ & _ & Hmin & _ & Hfb & _).
  apply processMetrics_fields in Hp. cbv zeta in Hp.
  destruct Hp as (Hout & Hfair & Hsale & Hslip).
  set (st := resolve contract (strOr (Contract.mechanism contract) "")
                     (Metrics.answerId metrics)) in *.
  set (y := orElse (YES (r_pool st)) 0) in *.
  set (n := orElse (NO (r_pool st)) 0) in *.
  rewrite Hnull in Hfb. unfold fallbackProbability in Hfb. cbv zeta in Hfb.
  fold y n in Hfb.
  destruct (0 <? y) eqn:Ey; [|discriminate].
  destruct (0 <? n) eqn:En; [|discriminate].
  cbn [andb] in Hfb. injection Hfb as Hprob. reflect_cmp.
  split; [exact Ey|]. split; [exact En|]. split; [now symmetry|].
  set (shares := Position.shares pos) in *.
  assert (Hs : 0 < shares) by lra.
  set (amm := calculateSaleValue _ _ _ _ _) in *.
  assert (Hpp : poolProb (r_pool st) = n / (y + n)).
  { unfold poolProb. fold y n.
    replace (0 <? y + n) with true by (symmetry; apply Rltb_true; lra).
    reflexivity. }
  assert (Hq : 0 < n / (y + n) < 1).
  { rewrite <- Hpp. now apply poolProb_strict. }
  assert (Hamm : 0 < amm
                 <= shares * (if (Position.outcome pos =? "YES")%string
                              then n / (y + n) else 1 - n / (y + n))).
  { unfold amm. rewrite sale_value_unfolded by assumption.
    rewrite <- Hpp, <- lowerBound_opposite.
    pose proof (amount_in_search_interval (r_pool st)
                  (orElse (Contract.p contract) (1 / 2)) shares
                  (opposite (Position.outcome pos)) Hs) as Hi.
    pose proof (lowerBound_positive (r_pool st) shares
                  (opposite (Position.outcome pos)) Ey En Hs) as Hlb.
    pose proof (amount_below_shares (r_pool st)
                  (orElse (Contract.p contract) (1 / 2)) shares
                  (opposite (Position.outcome pos)) Ey En Hs) as Hlt.
    unfold Rmax. destruct (Rle_dec _ _); lra. }
  assert (Hfv : Position.fairValue pos =
                Fin (shares * (if (Position.outcome pos =? "YES")%string
                               then n / (y + n) else 1 - n / (y + n)))).
  { rewrite Hfair, <- Hprob. unfold calculateSimpleSaleValue.
    destruct Hout as [-> | ->];
      cbn [String.eqb Ascii.eqb Bool.eqb toNumber nmul nsub nlift2];
      reflexivity. }
  set (fv := shares * _) in *.
  rewrite Hfv in Hsale, Hslip. cbn [nltb] in Hslip.
  assert (Hfvpos : 0 < fv) by lra.
  replace (0 <? amm) with true in Hsale, Hslip
    by (symmetry; apply Rltb_true; lra).
  replace (0 <? fv) with true in Hslip by (symmetry; now apply Rltb_true).
  cbn [andb nsub ndiv nlift2] in Hslip.
  exists amm, fv, ((fv - amm) / fv).
  repeat split; try assumption; try lra.
  - apply Rmult_le_pos; [lra|]. left. now apply Rinv_0_lt_compat.
  - apply Rmult_lt_reg_r with fv; [exact Hfvpos|].
    unfold Rdiv. rewrite Rmult_assoc, Rinv_l by lra. lra.
Qed.

(** On [{YES: 1, NO: 1}] with [p = 0.5], the cost of [8/3] NO shares: the
    first midpoint [2] buys exactly [8/3] shares. *)
Lemma cost_of_8_3_NO :
  calculateAmountToBuyShares unitPool (1 / 2) (8 / 3) "NO" = 2.
Proof.
  assert (Hy : 0 < orElse (YES unitPool) 0)
    by (unfold unitPool; cbn [YES]; rewrite orElse_zero; lra).
  assert (Hn : 0 < orElse (NO unitPool) 0)
    by (unfold unitPool; cbn [NO]; rewrite orElse_zero; lra).
  unfold calculateAmountToBuyShares.
  replace (8 / 3 <=? 0) with false by (symmetry; apply Rleb_false; lra).
  cbv zeta. unfold lowerBound. simpl String.eqb. cbv iota.
  rewrite poolProb_unitPool.
  rewrite bisect_accept; [lra|].
  replace ((8 / 3 * (1 - 1 / 2) + 8 / 3) / 2) with 2 by lra.
  rewrite (shares_half_NO unitPool 2 "NO") by (assumption || lra || discriminate).
  unfold unitPool; cbn [YES NO]. rewrite orElse_zero.
  replace (1 + 2 - 1 * 1 / (1 + 2) - 8 / 3) with 0 by field.
  rewrite Rabs_R0. lra.
Qed.

Lemma processPositions_rawFallback (currentTime : R) :
  processPositions currentTime rawFallback = [posFallback].
Proof.
  unfold rawFallback, contractNullProb, holdingYes83, posFallback.
  run_pipeline. decide_cmp. run_pipeline. unfold opposite.
  cbn [String.eqb Ascii.eqb Bool.eqb]. cbv iota.
  unfold unitPool. cbn [YES NO]. decide_cmp. run_pipeline. decide_cmp.
  change (mkYesNo (number 1) (number 1)) with unitPool.
  rewrite cost_of_8_3_NO.
  replace (Rmax 0 (8 / 3 - 2)) with (2 / 3)
    by (unfold Rmax; destruct (Rle_dec 0 (8 / 3 - 2)); lra).
  decide_cmp. run_pipeline. decide_cmp.
  replace (8 / 3 * (1 / (1 + 1))) with (4 / 3) by field.
  replace (1 / (1 + 1)) with (1 / 2) by field.
  replace ((4 / 3 - 2 / 3) / (4 / 3)) with (1 / 2) by field.
  reflexivity.
Qed.

Lemma fallback_valuation_witness :
  In posFallback (processPositions 0 rawFallback)
  /\ Position.probability posFallback = number (1 / (1 + 1))
  /\ exists saleValue fairValue slippage,
       Position.saleValue posFallback = Fin saleValue
       /\ Position.fairValue posFallback = Fin fairValue
       /\ 0 < saleValue <= fairValue
       /\ Position.slippage posFallback = Fin slippage
       /\ 0 <= slippage < 1.
Proof.
  assert (Hrun : processMetrics 0 "m" contractNullProb "cpmm-1" holdingYes83
                 = Some posFallback).
  { pose proof (processPositions_rawFallback 0) as H.
    rewrite processPositions_flat_map in H.
    cbn [rawFallback RawData.contracts RawData.metricsByContract listOr
         flat_map] in H.
    unfold processEntry in H.
    assert (Hl : buildLookup [contractNullProb] "m" = Some contractNullProb)
      by reflexivity.
    rewrite Hl in H.
    cbn [contractNullProb Contract.isResolved Contract.mechanism strOr
         supported existsb String.eqb Ascii.eqb Bool.eqb orb negb] in H.
    rewrite processMetricsList_app in H. cbn [flat_map app] in H.
    rewrite app_nil_r in H.
    destruct (processMetrics 0 "m" _ _ holdingYes83) as [q|];
      cbn [pushed] in H; [|discriminate].
    injection H as ->. reflexivity. }
  destruct (fallback_valuation 0 rawFallback "m" [holdingYes83]
              contractNullProb holdingYes83 posFallback)
    as (Hin & _ & _ & Hprob & sv & fv & sl & H1 & H2 & _ & H3 & H4 & _ & H5).
  - left. reflexivity.
  - reflexivity.
  - reflexivity.
  - reflexivity.
  - left. reflexivity.
  - exact Hrun.
  - reflexivity.
  - split; [exact Hin|]. split.
    + rewrite Hprob. unfold contractNullProb, unitPool, resolve.
      cbn [Contract.mechanism strOr String.eqb Ascii.eqb Bool.eqb
           Contract.pool objOr r_pool YES NO].
      now rewrite !orElse_zero.
    + exists sv, fv, sl. repeat split; assumption || apply H3 || apply H5.
Defined.

(** * Further properties of the ranking *)

Lemma filter_all {A : Type} (f : A -> bool) (l : list A) :
  (forall x, In x l -> f x = true) -> filter f l = l.
Proof.
  induction l as [|x l IH]; intros H; [reflexivity|].
  cbn [filter]. rewrite (H x) by now left.
  rewrite IH; [reflexivity|]. intros y Hy. apply H. now right.
Qed.

Lemma filter_none {A : Type} (f : A -> bool) (l : list A) :
  (forall x, In x l -> f x = false) -> filter f l = [].
Proof.
  induction l as [|x l IH]; intros H; [reflexivity|].
  cbn [filter]. rewrite (H x) by now left.
  apply IH. intros y Hy. apply H. now right.
Qed.

Lemma sortBy_sorted_fixed {A : Type} (key : A -> R) (compare : A -> A -> R)
    (l : list A) :
  (forall a b, compare a b = key a - key b) ->
  Sorted (fun a b => key a <= key b) l -> sortBy compare l = l.
Proof.
  intros Hc. induction 1 as [|x l Hs IH Hhd]; [reflexivity|].
  cbn [sortBy fold_right]. fold (sortBy compare l). rewrite IH.
  destruct Hhd as [|y r Hxy]; [reflexivity|].
  cbn [insertBy]. rewrite Hc.
  replace (0 <? key x - key y) with false
    by (symmetry; apply Rltb_false; lra).
  reflexivity.
Qed.

Lemma getAll_split (positions : list Position.t) :
  getAllPositionsSorted positions =
  (sortBy ascending (filter belowMargin positions)
   ++ sortBy descending (filter atOrAboveMargin positions))%list.
Proof.
  unfold getAllPositionsSorted. cbv zeta.
  now rewrite !filter_twice, below_filter, above_filter.
Qed.

Lemma sorted_below_members (positions : list Position.t) (p : Position.t) :
  In p (sortBy ascending (filter belowMargin positions)) ->
  belowMargin p = true.
Proof.
  intros Hp.
  apply (Permutation_in _ (sortBy_perm ascending _)) in Hp.
  now apply filter_In in Hp.
Qed.

Lemma sorted_above_members (positions : list Position.t) (p : Position.t) :
  In p (sortBy descending (filter atOrAboveMargin positions)) ->
  atOrAboveMargin p = true.
Proof.
  intros Hp.
  apply (Permutation_in _ (sortBy_perm descending _)) in Hp.
  now apply filter_In in Hp.
Qed.

Lemma belowMargin_tests (p : Position.t) :
  belowMargin p = true ->
  notNull (Position.returnIfCorrect p) = true
  /\ ltMargin (Position.returnIfCorrect p) = true
  /\ geMargin (Position.returnIfCorrect p) = false.
Proof.
  unfold belowMargin.
  destruct (Position.returnIfCorrect p) as [[|x]|]; try discriminate.
  intros H. cbn [notNull ltMargin geMargin nltb nleb]. reflect_cmp.
  repeat split; [now apply Rltb_true|apply Rleb_false; lra].
Qed.

Lemma atOrAboveMargin_tests (p : Position.t) :
  atOrAboveMargin p = true ->
  notNull (Position.returnIfCorrect p) = true
  /\ ltMargin (Position.returnIfCorrect p) = false
  /\ geMargin (Position.returnIfCorrect p) = true.
Proof.
  unfold atOrAboveMargin.
  destruct (Position.returnIfCorrect p) as [[|x]|]; try discriminate.
  intros H. cbn [notNull ltMargin geMargin nltb nleb]. reflect_cmp.
  repeat split; [apply Rltb_false; lra|now apply Rleb_true].
Qed.

(** X12.  The list shown by the application starts with the list of
    [getPositionsBelowMarginRate]: filtering [getAllPositionsSorted] by
    [returnIfCorrect < MARGIN_RATE_ANNUAL], as [displayResults] does,
    gives exactly [getPositionsBelowMarginRate] of the same positions, and
    the [belowMarginCount] of [analyzePortfolio] is the number of input
    records with a numeric return below the margin rate; records without
    a return are never counted. *)
Theorem shown_below_margin (positions : list Position.t) :
  (exists above,
     getAllPositionsSorted positions =
     (getPositionsBelowMarginRate positions ++ above)%list)
  /\ belowMarginPositions (getAllPositionsSorted positions)
     = getPositionsBelowMarginRate positions
  /\ belowMarginCount (getAllPositionsSorted positions)
     = List.length (filter belowMargin positions).
Proof.
  assert (Hb : getPositionsBelowMarginRate positions
               = sortBy ascending (filter belowMargin positions))
    by (unfold getPositionsBelowMarginRate; now rewrite below_filter).
  assert (Hf : filter (fun p => ltMargin (Position.returnIfCorrect p))
                 (getAllPositionsSorted positions)
               = getPositionsBelowMarginRate positions).
  { rewrite getAll_split, filter_app, Hb.
    rewrite (filter_all _ (sortBy ascending _)),
            (filter_none _ (sortBy descending _)); [now rewrite app_nil_r| |].
    - intros p Hp. now apply sorted_above_members, atOrAboveMargin_tests in Hp.
    - intros p Hp. now apply sorted_below_members, belowMargin_tests in Hp. }
  split; [|split].
  - rewrite getAll_split, Hb. eexists. reflexivity.
  - exact Hf.
  - unfold belowMarginCount. rewrite Hf, Hb.
    apply Permutation_length, sortBy_perm.
Qed.

(** X13.  Ranking a ranked list changes nothing: both
    [getPositionsBelowMarginRate] and [getAllPositionsSorted] return
    their own output unchanged. *)
Theorem ranking_idempotent (positions : list Position.t) :
  getPositionsBelowMarginRate (getPositionsBelowMarginRate positions)
  = getPositionsBelowMarginRate positions
  /\ getAllPositionsSorted (getAllPositionsSorted positions)
     = getAllPositionsSorted positions.
Proof.
  assert (Hasc : forall a b, ascending a b = ret a - ret b) by reflexivity.
  assert (Hdesc : forall a b,
             descending a b = (fun p => - ret p) a - (fun p => - ret p) b)
    by (intros; unfold descending, ret; lra).
  set (below := sortBy ascending (filter belowMargin positions)).
  set (above := sortBy descending (filter atOrAboveMargin positions)).
  assert (Sb : sortBy ascending below = below).
  { apply (sortBy_sorted_fixed ret); [exact Hasc|].
    apply (sortBy_sorted ret ascending Hasc). }
  assert (Sa : sortBy descending above = above).
  { apply (sortBy_sorted_fixed (fun p => - ret p)); [exact Hdesc|].
    apply (sortBy_sorted (fun p => - ret p) descending Hdesc). }
  assert (Fb : filter belowMargin below = below).
  { apply filter_all. intros p Hp. now apply sorted_below_members in Hp. }
  assert (Fa : filter atOrAboveMargin above = above).
  { apply filter_all. intros p Hp. now apply sorted_above_members in Hp. }
  assert (Fba : filter belowMargin above = []).
  { apply filter_none. intros p Hp.
    apply sorted_above_members, atOrAboveMargin_numeric in Hp.
    unfold belowMargin. destruct Hp as [-> Hp].
    apply Rltb_false. lra. }
  assert (Fab : filter atOrAboveMargin below = []).
  { apply filter_none. intros p Hp.
    apply sorted_below_members, belowMargin_numeric in Hp.
    unfold atOrAboveMargin. destruct Hp as [-> Hp].
    apply Rleb_false. lra. }
  split.
  - unfold getPositionsBelowMarginRate. rewrite !below_filter.
    fold below. now rewrite Fb, Sb.
  - rewrite !getAll_split. fold below above.
    rewrite !filter_app, Fb, Fa, Fba, Fab, app_nil_r. cbn [app].
    now rewrite Sb, Sa.
Qed.



(** * Retrieval *)

Lemma fetchLoop_paged (stored : list Contract.t)
    (metricsAt : nat -> option (list (string * list Metrics.t)))
    (rounds : nat) :
  forall offset allMetrics allContracts progress,
  (List.length (skipn offset stored) < 100 * rounds)%nat ->
  exists metrics progress',
    fetchLoop (pagedServer stored metricsAt) rounds offset
              allMetrics allContracts progress
    = Returned (RawData.mk (Some (allContracts ++ skipn offset stored)%list)
                           (Some metrics))
               progress'.
Proof.
  induction rounds as [|rounds IH];
    intros offset allMetrics allContracts progress Hlen; [lia|].
  cbn [fetchLoop pagedServer listOr].
  set (rest := skipn offset stored) in *.
  assert (Hpage : List.length (firstn 100 rest)
                  = Nat.min 100 (List.length rest)) by apply length_firstn.
  destruct (List.length (firstn 100 rest) =? 0)%nat eqn:E0.
  - apply Nat.eqb_eq in E0.
    assert (Hrest : rest = []) by (apply length_zero_iff_nil; lia).
    rewrite Hrest, app_nil_r. eexists _, _. reflexivity.
  - destruct (List.length (firstn 100 rest) <? 100)%nat eqn:E1.
    + apply Nat.ltb_lt in E1.
      rewrite (firstn_all2 rest) by lia.
      eexists _, _. reflexivity.
    + apply Nat.ltb_ge in E1.
      destruct (IH (offset + 100)%nat
                   (objectAssign allMetrics (listOr (metricsAt offset)))
                   (allContracts ++ firstn 100 rest)%list
                   (progress ++
                    [List.length (allContracts ++ firstn 100 rest)%list])%list)
        as (m & pr & Hm).
      * replace (offset + 100)%nat with (100 + offset)%nat by lia.
        rewrite <- skipn_skipn. fold rest. rewrite length_skipn. lia.
      * rewrite Hm. exists m, pr. do 3 f_equal.
        replace (offset + 100)%nat with (100 + offset)%nat by lia.
        rewrite <- skipn_skipn. fold rest.
        now rewrite <- app_assoc, firstn_skipn.
Qed.

(** X15.  Against a server that serves its stored contracts in pages of
    100 by offset, [getUserPositions] returns all the stored contracts,
    in order, once the rounds allowed cover the pages; a last page that
    is full costs one more request, which finds no contracts. *)
Theorem retrieval_complete (stored : list Contract.t)
    (metricsAt : nat -> option (list (string * list Metrics.t)))
    (rounds : nat) :
  (List.length stored < 100 * rounds)%nat ->
  exists metrics progress,
    getUserPositions (pagedServer stored metricsAt) rounds
    = Returned (RawData.mk (Some stored) (Some metrics)) progress.
Proof.
  intros Hlen. unfold getUserPositions.
  destruct (fetchLoop_paged stored metricsAt rounds 0 [] [] [])
    as (m & pr & H); [exact Hlen|].
  exists m, pr. exact H.
Qed.

Lemma retrieval_complete_witness :
  exists metrics progress,
    getUserPositions (pagedServer [contractPlain] (fun _ => None)) 1
    = Returned (RawData.mk (Some [contractPlain]) (Some metrics)) progress.
Proof.
  apply retrieval_complete. cbn [List.length]. lia.
Defined.

Lemma fetchLoop_error (fetch : nat -> Response) (status : nat) (j : nat) :
  forall k rounds allMetrics allContracts progress,
  (forall i, (i < j)%nat ->
     exists metrics contracts,
       fetch (100 * (k + i))%nat = Ok metrics (Some contracts)
       /\ List.length contracts = 100%nat) ->
  fetch (100 * (k + j))%nat = NotOk status ->
  (j < rounds)%nat ->
  exists progress',
    fetchLoop fetch rounds (100 * k)%nat allMetrics allContracts progress
    = Threw status progress'.
Proof.
  induction j as [|j IH]; intros k rounds allMetrics allContracts progress
                                 Hfull Herr Hr.
  - destruct rounds as [|rounds]; [lia|]. cbn [fetchLoop].
    replace (k + 0)%nat with k in Herr by lia. rewrite Herr.
    eexists. reflexivity.
  - destruct rounds as [|rounds]; [lia|]. cbn [fetchLoop].
    destruct (Hfull 0%nat) as (m & c & Hk & Hc); [lia|].
    replace (k + 0)%nat with k in Hk by lia. rewrite Hk.
    cbn [listOr]. rewrite Hc. cbn [Nat.eqb Nat.ltb Nat.leb].
    replace (100 * k + 100)%nat with (100 * (S k))%nat by lia.
    apply IH.
    + intros i Hi. destruct (Hfull (S i)) as (m' & c' & H1 & H2); [lia|].
      exists m', c'. split; [|exact H2].
      replace (S k + i)%nat with (k + S i)%nat by lia. exact H1.
    + replace (S k + j)%nat with (k + S j)%nat by lia. exact Herr.
    + lia.
Qed.

(** X16.  An error reply aborts the retrieval: when the first [j] pages
    are full and the next request is answered with a status that is not
    ok, [getUserPositions] throws with that status and returns nothing of
    what the earlier pages delivered. *)
Theorem retrieval_error_aborts (fetch : nat -> Response) (status j : nat)
    (rounds : nat) :
  (forall i, (i < j)%nat ->
     exists metrics contracts,
       fetch (100 * i)%nat = Ok metrics (Some contracts)
       /\ List.length contracts = 100%nat) ->
  fetch (100 * j)%nat = NotOk status ->
  (j < rounds)%nat ->
  exists progress, getUserPositions fetch rounds = Threw status progress.
Proof.
  intros Hfull Herr Hr. unfold getUserPositions.
  change 0%nat with (100 * 0)%nat at 1.
  apply (fetchLoop_error fetch status j 0 rounds); assumption.
Qed.

Lemma retrieval_error_aborts_witness :
  exists progress, getUserPositions failingSecondPage 2 = Threw 500 progress.
Proof.
  apply (retrieval_error_aborts failingSecondPage 500 1 2).
  - intros i Hi. assert (i = 0)%nat by lia. subst i.
    eexists _, _. split; [reflexivity|]. apply repeat_length.
  - reflexivity.
  - lia.
Defined.

(** X17.  The loop has no bound of its own: against a server whose every
    page is full, no number of rounds ends it. *)
Theorem retrieval_unbounded (fetch : nat -> Response) (rounds : nat) :
  (forall offset, exists metrics contracts,
     fetch offset = Ok metrics (Some contracts)
     /\ List.length contracts = 100%nat) ->
  getUserPositions fetch rounds = Pending.
Proof.
  intros Hfull. unfold getUserPositions.
  generalize 0%nat as offset.
  generalize (@nil (string * list Metrics.t)) as allMetrics.
  generalize (@nil Contract.t) as allContracts.
  generalize (@nil nat) as progress.
  induction rounds as [|rounds IH];
    intros progress allContracts allMetrics offset; [reflexivity|].
  cbn [fetchLoop]. destruct (Hfull offset) as (m & c & Hf & Hc).
  rewrite Hf. cbn [listOr]. rewrite Hc. cbn [Nat.eqb Nat.ltb Nat.leb].
  apply IH.
Qed.

Lemma retrieval_unbounded_witness :
  getUserPositions (fun _ => Ok None (Some (repeat contractPlain 100))) 3
  = Pending.
Proof.
  apply retrieval_unbounded. intros offset.
  eexists _, _. split; [reflexivity|]. apply repeat_length.
Defined.

(** ** Merging the holdings of the pages *)

Lemma getProperty_setProperty (obj : list (string * list Metrics.t))
    (k k' : string) (v : list Metrics.t) :
  getProperty (setProperty obj k v) k' =
  if (k =? k')%string then Some v else getProperty obj k'.
Proof.
  induction obj as [|[k0 v0] obj IH]; cbn [setProperty getProperty].
  - reflexivity.
  - destruct (k0 =? k)%string eqn:E0; cbn [getProperty].
    + apply String.eqb_eq in E0. subst k0.
      now destruct (k =? k')%string.
    + rewrite IH. destruct (k0 =? k')%string eqn:E1; [|reflexivity].
      apply String.eqb_eq in E1. subst k0.
      apply String.eqb_neq in E0.
      destruct (k =? k')%string eqn:E2; [|reflexivity].
      apply String.eqb_eq in E2. congruence.
Qed.

Lemma objectAssign_snoc (target source : list (string * list Metrics.t))
    (k : string) (v : list Metrics.t) :
  objectAssign target (source ++ [(k, v)])
  = setProperty (objectAssign target source) k v.
Proof. unfold objectAssign. now rewrite fold_left_app. Qed.

(** Reading a key after [Object.assign]: the value of its last entry in
    the source when the source has the key, the value in the target
    otherwise. *)
Lemma objectAssign_lookup (target source : list (string * list Metrics.t))
    (k : string) :
  getProperty (objectAssign target source) k =
  match getProperty (rev source) k with
  | Some v => Some v
  | None => getProperty target k
  end.
Proof.
  induction source as [|[k0 v0] source IH] using rev_ind; [reflexivity|].
  rewrite objectAssign_snoc, getProperty_setProperty, rev_app_distr.
  cbn [rev app getProperty].
  destruct (k0 =? k)%string; [reflexivity|exact IH].
Qed.

(** X18.  Holdings of a later page replace those of an earlier page:
    when the first page is full and the second is short, the object
    returned holds the contracts of both pages in order, and under each
    contract id the holdings listed by the second page when it lists the
    id, and those of the first page otherwise. *)
Theorem later_page_overrides (fetch : nat -> Response)
    (metrics0 metrics1 : list (string * list Metrics.t))
    (contracts0 contracts1 : list Contract.t) (rounds : nat) :
  fetch 0%nat = Ok (Some metrics0) (Some contracts0) ->
  List.length contracts0 = 100%nat ->
  fetch 100%nat = Ok (Some metrics1) (Some contracts1) ->
  (0 < List.length contracts1 < 100)%nat ->
  (2 <= rounds)%nat ->
  exists metrics progress,
    getUserPositions fetch rounds
    = Returned (RawData.mk (Some (contracts0 ++ contracts1)%list)
                           (Some metrics))
               progress
    /\ forall k,
         getProperty metrics k =
         match getProperty (rev metrics1) k with
         | Some v => Some v
         | None => getProperty (rev metrics0) k
         end.
Proof.
  intros H0 Hc0 H1 Hc1 Hr.
  destruct rounds as [|[|rounds]]; [lia|lia|].
  unfold getUserPositions. cbn [fetchLoop]. rewrite H0. cbn [listOr].
  rewrite Hc0. cbn [Nat.eqb Nat.ltb Nat.leb Nat.add]. rewrite H1.
  cbn [listOr app].
  destruct (List.length contracts1 =? 0)%nat eqn:E0;
    [apply Nat.eqb_eq in E0; lia|].
  assert (E1 : (List.length contracts1 <=? 99)%nat = true)
    by (apply Nat.leb_le; lia).
  rewrite E1.
  eexists _, _. split; [reflexivity|].
  intros k. rewrite !objectAssign_lookup.
  destruct (getProperty (rev metrics1) k); [reflexivity|].
  now destruct (getProperty (rev metrics0) k).
Qed.

Lemma later_page_overrides_witness :
  exists metrics progress,
    getUserPositions twoPages 2
    = Returned (RawData.mk (Some (repeat contractPlain 100 ++ [contractPlain])%list)
                           (Some metrics))
               progress
    /\ getProperty metrics "m" = Some [holdingYes83]
    /\ getProperty metrics "k" = Some [].
Proof.
  destruct (later_page_overrides twoPages firstPageMetrics secondPageMetrics
              (repeat contractPlain 100) [contractPlain] 2)
    as (metrics & progress & Hrun & Hread).
  - reflexivity.
  - apply repeat_length.
  - reflexivity.
  - cbn [List.length]. lia.
  - lia.
  - exists metrics, progress. split; [exact Hrun|].
    split; rewrite Hread; reflexivity.
Defined.

(** * The statistics and the column sort of the application *)

Lemma In_getAll (positions : list Position.t) (p : Position.t) :
  In p (getAllPositionsSorted positions) -> In p positions.
Proof.
  rewrite getAll_split. intros H. apply in_app_or in H. destruct H as [H|H].
  - apply (Permutation_in _ (sortBy_perm ascending _)) in H.
    now apply filter_In in H.
  - apply (Permutation_in _ (sortBy_perm descending _)) in H.
    now apply filter_In in H.
Qed.

Lemma sale_value_field_bounded (currentTime : R) (rawData : RawData.t)
    (pos : Position.t) (q : R) :
  In pos (processPositions currentTime rawData) ->
  Position.probability pos = number q -> 0 <= q <= 1 ->
  exists saleValue,
    Position.saleValue pos = Fin saleValue
    /\ 0 <= saleValue <= Position.shares pos.
Proof.
  intros Hin Hq Hrange. apply In_processPositions in Hin.
  destruct Hin as (contractId & metricsList & contract & metrics
                   & _ & _ & _ & _ & _ & Hp).
  pose proof (processMetrics_record _ _ _ _ _ _ Hp) as Hr.
  cbv zeta in Hr. destruct Hr as (_ & _ & Hmin & _).
  apply processMetrics_fields in Hp. cbv zeta in Hp.
  destruct Hp as (Hout & Hfair & Hsale & _).
  set (amm := calculateSaleValue _ _ _ _ _) in *.
  assert (Hs : 0 <= Position.shares pos) by lra.
  assert (Hamm : 0 <= amm <= Position.shares pos)
    by (apply sale_value_range; exact Hs).
  rewrite Hq in Hfair.
  destruct (fair_value_range (Position.shares pos) q (Position.outcome pos)
              Hs Hrange Hout) as (fv & Hfv & Hfvr).
  rewrite Hfv in Hfair. rewrite Hfair in Hsale.
  revert Hsale. destruct (0 <? amm); intros Hsale; eexists;
    (split; [exact Hsale|lra]).
Qed.

Lemma totals_fold (l : list Position.t) :
  (forall p, In p l ->
     exists sv, Position.saleValue p = Fin sv /\ 0 <= sv <= Position.shares p) ->
  forall s t, 0 <= s <= t ->
  exists total,
    fold_left (fun sum p => nadd sum (Position.saleValue p)) l (Fin s)
    = Fin total
    /\ 0 <= total
          <= fold_left (fun sum p => sum + Position.shares p) l t.
Proof.
  induction l as [|p l IH]; intros Hb s t Hst.
  - exists s. split; [reflexivity|exact Hst].
  - cbn [fold_left]. destruct (Hb p) as (sv & Hsv & Hr); [now left|].
    rewrite Hsv. cbn [nadd nlift2].
    apply IH; [|lra]. intros p' Hp'. apply Hb. now right.
Qed.

(** X20.  When every valuation has a probability between [0] and [1],
    the two totals shown by [displayResults] for the sorted list are
    numbers with [0 <= totalSaleValue <= totalPayout]: what can be
    recovered by selling never exceeds the payout. *)
Theorem recoverable_at_most_payout (currentTime : R) (rawData : RawData.t) :
  (forall pos, In pos (processPositions currentTime rawData) ->
     exists q, Position.probability pos = number q /\ 0 <= q <= 1) ->
  let shown := getAllPositionsSorted (processPositions currentTime rawData) in
  exists total,
    totalSaleValue shown = Fin total /\ 0 <= total <= totalPayout shown.
Proof.
  intros Hprob shown. unfold totalSaleValue, totalPayout.
  apply totals_fold; [|lra].
  intros p Hp. unfold belowMarginPositions in Hp.
  apply filter_In in Hp. destruct Hp as [Hp _].
  apply In_getAll in Hp.
  destruct (Hprob p Hp) as (q & Hq & Hr).
  now apply (sale_value_field_bounded currentTime rawData p q).
Qed.

Lemma processPositions_rawSure :
  processPositions 0 rawSure = [posSure].
Proof.
  unfold rawSure, contractSure, holdingYes10, posSure, thirtyDays.
  run_pipeline. decide_cmp. run_pipeline. decide_cmp.
  replace ((30 * (1000 * 60 * 60 * 24) - 0) / (1000 * 60 * 60 * 24))
    with 30 by field.
  decide_cmp. run_pipeline. decide_cmp.
  replace (Rmax 30 1) with 30
    by (unfold Rmax; destruct (Rle_dec 30 1); lra).
  replace (10 * (999 / 1000)) with (999 / 100) by field.
  replace ((10 - 999 / 100) / (999 / 100) * (365 / 30)) with (73 / 5994)
    by field.
  reflexivity.
Qed.

(** The record [posSure] is below the margin rate, so it is among the
    records that the statistics add up. *)
Lemma shown_rawSure :
  belowMarginPositions (getAllPositionsSorted (processPositions 0 rawSure))
  = [posSure].
Proof.
  assert (Hlt : 73 / 5994 < MARGIN_RATE_ANNUAL)
    by (unfold MARGIN_RATE_ANNUAL; lra).
  assert (Hb : belowMargin posSure = true)
    by (unfold belowMargin, posSure; cbn [Position.returnIfCorrect];
        now apply Rltb_true).
  assert (Ha : atOrAboveMargin posSure = false)
    by (unfold atOrAboveMargin, posSure; cbn [Position.returnIfCorrect];
        apply Rleb_false; exact Hlt).
  assert (Hl : ltMargin (Position.returnIfCorrect posSure) = true)
    by (unfold ltMargin, posSure; cbn [Position.returnIfCorrect nltb];
        now apply Rltb_true).
  rewrite processPositions_rawSure, getAll_split.
  cbn [filter]. rewrite Hb, Ha. cbn [sortBy fold_right insertBy app].
  unfold belowMarginPositions. cbn [filter]. now rewrite Hl.
Qed.

Lemma recoverable_at_most_payout_witness :
  belowMarginPositions (getAllPositionsSorted (processPositions 0 rawSure))
  = [posSure]
  /\ exists total,
       totalSaleValue (getAllPositionsSorted (processPositions 0 rawSure))
       = Fin total
       /\ 0 <= total
          <= totalPayout (getAllPositionsSorted (processPositions 0 rawSure)).
Proof.
  split; [exact shown_rawSure|].
  apply (recoverable_at_most_payout 0 rawSure).
  intros pos Hin.
  rewrite processPositions_rawSure in Hin.
  destruct Hin as [<- | []].
  exists (999 / 1000). split; [reflexivity|lra].
Defined.

Lemma insertBy_sorted_on {A : Type} (key : A -> R) (compare : A -> A -> R)
    (x : A) (l : list A) :
  (forall y, In y l -> compare x y = key x - key y) ->
  Sorted (fun a b => key a <= key b) l ->
  Sorted (fun a b => key a <= key b) (insertBy compare x l).
Proof.
  intros Hc Hs. induction Hs as [|y l Hs IH Hhd]; cbn [insertBy];
    [repeat constructor|].
  destruct (0 <? compare x y) eqn:E; reflect_cmp;
    rewrite (Hc y) in E by now left.
  - constructor.
    + apply IH. intros z Hz. apply Hc. now right.
    + apply insertBy_HdRel; [lra|exact Hhd].
  - constructor; [now constructor|]. constructor. lra.
Qed.

Lemma sortBy_sorted_on {A : Type} (key : A -> R) (compare : A -> A -> R)
    (l : list A) :
  (forall a b, In a l -> In b l -> compare a b = key a - key b) ->
  Sorted (fun a b => key a <= key b) (sortBy compare l).
Proof.
  induction l as [|x l IH]; intros Hc; cbn [sortBy fold_right];
    [constructor|].
  fold (sortBy compare l). apply insertBy_sorted_on.
  - intros y Hy. apply Hc; [now left|right].
    now apply (Permutation_in _ (sortBy_perm compare l)).
  - apply IH. intros a b Ha Hb. apply Hc; now right.
Qed.

(** X21.  [sortPositions] on a column of numbers none of which is [NaN]:
    the result holds the same records as the input, in ascending order of
    the column for the direction ['asc'] and in descending order for any
    other direction, an absent value counting as [0]. *)
Theorem sortPositions_orders (positions : list Position.t)
    (key direction : string) :
  stringColumn key = false ->
  (forall p, In p positions -> columnValue key p <> NaN) ->
  let value p := comparison (columnValue key p) in
  let sorted := sortPositions positions key direction in
  Permutation sorted positions
  /\ (direction = "asc"%string -> Sorted (fun a b => value a <= value b) sorted)
  /\ (direction <> "asc"%string -> Sorted (fun a b => value b <= value a) sorted).
Proof.
  intros _ Hnum value sorted. subst sorted. unfold sortPositions.
  assert (Hdiff : forall a b, In a positions -> In b positions ->
            comparison (nsub (columnValue key a) (columnValue key b))
            = value a - value b).
  { intros a b Ha Hb. unfold value.
    pose proof (Hnum a Ha) as Hna. pose proof (Hnum b Hb) as Hnb.
    destruct (columnValue key a); [contradiction|].
    destruct (columnValue key b); [contradiction|]. reflexivity. }
  split; [apply sortBy_perm|]. split.
  - intros ->. cbn [String.eqb Ascii.eqb Bool.eqb]. cbv iota.
    apply (sortBy_sorted_on value). intros a b Ha Hb. cbv zeta.
    now apply Hdiff.
  - intros Hd. apply String.eqb_neq in Hd. rewrite Hd.
    pose proof (sortBy_sorted_on (fun p => - value p)
                  (fun a b => let aVal := columnValue key a in
                              let bVal := columnValue key b in
                              comparison (nsub bVal aVal))
                  positions) as Hs.
    cbv zeta in Hs |- *.
    assert (Hs' : Sorted (fun a b => - value a <= - value b)
                    (sortBy (fun a b =>
                               comparison (nsub (columnValue key b)
                                                (columnValue key a)))
                            positions)).
    { apply Hs. intros a b Ha Hb. rewrite Hdiff by assumption. lra. }
    eapply Sorted_ind with (P := fun l => Sorted (fun a b => value b <= value a) l);
      [constructor| |exact Hs'].
    intros a l _ IH Hhd. constructor; [exact IH|].
    destruct Hhd; constructor. lra.
Qed.

Lemma sortPositions_orders_witness :
  Permutation (sortPositions [posPlainAt 0; posFallback] "payout" "asc")
              [posPlainAt 0; posFallback].
Proof.
  apply (sortPositions_orders [posPlainAt 0; posFallback] "payout" "asc").
  - reflexivity.
  - intros p Hp. unfold columnValue. cbn [String.eqb Ascii.eqb Bool.eqb].
    discriminate.
Defined.
